(** * cclab-backend: the post/image lifecycle of [index.js]

    A shallow embedding of the four Express routes of [index.js]
    ([GET /], [POST /compose], [GET /posts/:postID],
    [DELETE /posts/:postID]) together with the [multerS3] key callback,
    and the properties the specification states about them.

    The collaborators the file talks to (the MongoDB collection behind the
    [Post] model, the S3 client, the presigner, the clock) are not
    reimplemented: the collection is a list of documents, and what each
    remote call answers during one request is read from an [Env]. *)

From Stdlib Require Import Ascii.
From stdpp Require Import base option list strings gmap pretty.

Local Open Scope string_scope.

(** ** JavaScript values *)

(** A thrown value: every rejection in [index.js] carries an [Error].
    [err_status] is its numeric [status] (or [statusCode]) property, if it
    has one. *)
Record Error := mkError {
  err_name : string;
  err_message : string;
  err_status : option nat
}.

(** The state of a promise. [Pending] is a promise that never settles
    within the request. *)
Inductive Promise (A : Type) :=
  | Pending
  | Fulfilled (a : A)
  | Rejected (e : Error).
Arguments Pending {A}.
Arguments Fulfilled {A} a.
Arguments Rejected {A} e.

Global Instance Fulfilled_inj {A} : Inj (=) (=) (@Fulfilled A).
Proof. by intros x y [= ->]. Qed.

(** The JSON values that occur in the responses. *)
Inductive jsval :=
  | JNull
  | JString (s : string)
  | JNumber (n : Z).

Global Instance jsval_eq_dec : EqDecision jsval.
Proof. solve_decision. Defined.

(** A plain object, as produced by [toObject()] and object spread. *)
Abbreviation jsobj := (gmap string jsval).

(** ** The [Post] model *)

Abbreviation ObjectId := string.

(** [postSchema] has [title], [content] and [imageKey], all of type
    [String] and none required; mongoose adds [_id] and the version key
    [__v] (set when the document is first saved). *)
Record Post := mkPost {
  _id : ObjectId;
  title : option string;
  content : option string;
  imageKey : option string;
  __v : option Z
}.

(** Assigning [undefined] leaves the property out. *)
Definition set_defined (k : string) (v : option jsval) (o : jsobj) : jsobj :=
  match v with
  | Some x => <[k := x]> o
  | None => o
  end.

(** [post.toObject()]; [res.json(post)] serialises the same properties. *)
Definition toObject (p : Post) : jsobj :=
  set_defined "__v" (JNumber <$> __v p)
    (set_defined "imageKey" (JString <$> imageKey p)
      (set_defined "content" (JString <$> content p)
        (set_defined "title" (JString <$> title p)
          {[ "_id" := JString (_id p) ]}))).

(** ** S3 commands *)

Record GetObjectCommand := mkGetObject {
  get_Bucket : option string;
  get_Key : option string;
  ResponseContentType : option string
}.

Record DeleteObjectCommand := mkDeleteObject {
  del_Bucket : option string;
  del_Key : option string
}.

(** What the process asks of the S3 client, in the order it asks. *)
Inductive S3Request :=
  | Presign (c : GetObjectCommand) (expiresIn : Z)
  | SendDelete (c : DeleteObjectCommand)
  | Upload (bucket : option string) (key : string).

(** ** Responses *)

Inductive Body :=
  | SendText (s : string)
  | SendJson (o : jsobj)
  | SendJsonArray (l : list jsobj)
  | ErrorPage (e : Error).

Record Response := mkResponse { status : nat; body : Body }.

(** ** The world a request runs in *)

(** Operations of the mongoose model that reach the database. *)
Inductive DbOp :=
  | OpFind
  | OpFindOne (id : ObjectId)
  | OpDeleteOne (id : ObjectId)
  | OpSave (p : Post).

(** What is fixed for the life of the process: [process.env], the cast
    mongoose applies to an [_id] condition ([None]: the string is not an
    ObjectId, the query rejects with a CastError), and Node's
    [path.extname]. *)
Record Platform := mkPlatform {
  S3_BUCKET_NAME : option string;
  castObjectId : string → option ObjectId;
  path_extname : string → string
}.

(** What the collaborators answer during one request. *)
Record Env := mkEnv {
  getSignedUrl : GetObjectCommand → Z → Promise string;
  s3Client_send : DeleteObjectCommand → Promise ();
  s3_upload : string → Promise ();
  db_fault : DbOp → option Error;
  Date_now : Z;
  new_ObjectId : ObjectId
}.

(** The [posts] collection in natural order, the requests issued to S3 and
    what [console.error] printed. *)
Record World := mkWorld {
  collection : list Post;
  s3_requests : list S3Request;
  stderr : list (string * Error)
}.

(** ** Asynchronous computations *)

Definition Async (A : Type) : Type := World → World * Promise A.

Global Instance Async_ret : MRet Async := λ A a w, (w, Fulfilled a).

Global Instance Async_bind : MBind Async := λ A B f m w,
  match m w with
  | (w', Fulfilled a) => f a w'
  | (w', Rejected e) => (w', Rejected e)
  | (w', Pending) => (w', Pending)
  end.

Definition throw {A} (e : Error) : Async A := λ w, (w, Rejected e).

(** [await p] for a promise whose settlement is already decided. *)
Definition await {A} (p : Promise A) : Async A := λ w, (w, p).

(** [try { m } catch (err) { h err }] *)
Definition try_catch {A} (m : Async A) (h : Error → Async A) : Async A := λ w,
  match m w with
  | (w', Rejected e) => h e w'
  | r => r
  end.

Definition console_error (msg : string) (err : Error) : Async () := λ w,
  (mkWorld (collection w) (s3_requests w) (stderr w ++ [(msg, err)]), Fulfilled ()).

Definition s3_request (r : S3Request) : Async () := λ w,
  (mkWorld (collection w) (s3_requests w ++ [r]) (stderr w), Fulfilled ()).

(** [`${v}`] for a string that may be [undefined]. *)
Definition template (v : option string) : string := default "undefined" v.

(** [res.status(code).send(text)] and [res.status(code).json(value)]. *)
Definition res_send (code : nat) (text : string) : Async Response :=
  mret (mkResponse code (SendText text)).

Definition res_json (code : nat) (value : Body) : Async Response :=
  mret (mkResponse code value).

(** Express's default error handler: the error's own status when it is a
    4xx or 5xx, 500 otherwise. *)
Definition express_error (err : Error) : Response :=
  mkResponse
    (match err_status err with
     | Some code => if bool_decide (400 ≤ code < 600)%nat then code else 500
     | None => 500
     end)
    (ErrorPage err).

(** ** [Promise.all] *)

(** The promises handed to [Promise.all] settle one by one, in an order
    the program does not control; the order is a list of indices (the
    [schedule]). When promise [i] settles, what is left of its async
    function runs, and the resolve-element function of [Promise.all] for
    index [i] stores the value. *)
Section PromiseAll.
Context {A : Type}.

Record AllState := mkAll {
  values : list (option A);
  remaining : nat;
  outcome : Promise (list A)
}.

Definition all_init (n : nat) : AllState :=
  mkAll (replicate n None) n
        (match n with 0 => Fulfilled [] | S _ => Pending end).

(** Settling an already settled promise changes nothing. *)
Definition settle_with (p : Promise (list A)) (st : AllState) : Promise (list A) :=
  match outcome st with
  | Pending => p
  | o => o
  end.

(** The resolve-element function for index [i]: it runs once, writes
    [values[i]], counts down, and fulfils the aggregate at zero. *)
Definition resolve_element (i : nat) (x : A) (st : AllState) : AllState :=
  match values st !! i with
  | Some None =>
      let vs := <[i := Some x]> (values st) in
      let r := pred (remaining st) in
      mkAll vs r
            (settle_with (match r with
                          | 0 => Fulfilled (omap id vs)
                          | S _ => Pending
                          end) st)
  | _ => st
  end.

(** The first rejection rejects the aggregate. *)
Definition reject_element (e : Error) (st : AllState) : AllState :=
  mkAll (values st) (remaining st) (settle_with (Rejected e) st).

Fixpoint settle (tasks : list (Async A)) (schedule : list nat)
    (st : AllState) (w : World) : World * AllState :=
  match schedule with
  | [] => (w, st)
  | i :: rest =>
      match tasks !! i with
      | None => settle tasks rest st w
      | Some task =>
          match task w with
          | (w', Fulfilled x) => settle tasks rest (resolve_element i x st) w'
          | (w', Rejected e) => settle tasks rest (reject_element e st) w'
          | (w', Pending) => settle tasks rest st w'
          end
      end
  end.

(** [await Promise.all(tasks)] *)
Definition Promise_all (tasks : list (Async A)) (schedule : list nat) : Async (list A) := λ w,
  let '(w', st) := settle tasks schedule (all_init (length tasks)) w in
  (w', outcome st).
End PromiseAll.
Arguments AllState A : clear implicits.

(** [array.map(f)] for the part of an async callback that runs before its
    first [await]. *)
Fixpoint start_all {A} (f : A → Async ()) (l : list A) : Async () :=
  match l with
  | [] => mret ()
  | x :: l' => f x;; start_all f l'
  end.

(** ** Requests *)

(** A file part of a multipart form. *)
Record FilePart := mkFilePart { fieldname : string; originalname : string }.

(** [POST /compose]: the text fields [postTitle] and [postContent] and the
    file part, each possibly missing. *)
Record ComposeRequest := mkCompose {
  postTitle : option string;
  postContent : option string;
  file_part : option FilePart
}.

(** [req.file] as [multerS3] fills it. *)
Record S3File := mkS3File { part : FilePart; key : string }.

(** [deleteOne] removes the first document that matches. *)
Fixpoint remove_first (id : ObjectId) (l : list Post) : list Post :=
  match l with
  | [] => []
  | p :: l' => if decide (_id p = id) then l' else p :: remove_first id l'
  end.

Definition set_collection (l : list Post) : Async () := λ w,
  (mkWorld l (s3_requests w) (stderr w), Fulfilled ()).

Definition get_collection : Async (list Post) := λ w, (w, Fulfilled (collection w)).

Section Server.
Context (pf : Platform) (env : Env).

(** *** The [Post] model *)

Definition cast_id (postID : string) : Async ObjectId :=
  match castObjectId pf postID with
  | Some id => mret id
  | None => throw (mkError "CastError" ("Cast to ObjectId failed for value " +:+ postID) None)
  end.

Definition db_call (op : DbOp) : Async () :=
  match db_fault env op with
  | Some e => throw e
  | None => mret ()
  end.

(** [Post.find({})] *)
Definition Post_find : Async (list Post) :=
  db_call OpFind;; get_collection.

(** [Post.findOne({ _id: postID })] *)
Definition Post_findOne (postID : string) : Async (option Post) :=
  id ← cast_id postID;
  db_call (OpFindOne id);;
  docs ← get_collection;
  mret (List.find (λ p, bool_decide (_id p = id)) docs).

(** [Post.findById(postID)] is [findOne({ _id: postID })]. *)
Definition Post_findById (postID : string) : Async (option Post) :=
  Post_findOne postID.

(** [Post.deleteOne({ _id: postID })] *)
Definition Post_deleteOne (postID : string) : Async () :=
  id ← cast_id postID;
  db_call (OpDeleteOne id);;
  docs ← get_collection;
  set_collection (remove_first id docs).

(** [new Post({ title, content, imageKey })] *)
Definition new_Post (t c k : option string) : Post :=
  mkPost (new_ObjectId env) t c k None.

(** [post.save()] of a new document: an insert, refused by the unique
    index on [_id] when the id is taken; [post] then carries [__v]. *)
Definition Post_save (post : Post) : Async Post :=
  db_call (OpSave post);;
  docs ← get_collection;
  if bool_decide (_id post ∈ _id <$> docs)
  then throw (mkError "MongoServerError" "E11000 duplicate key error" None)
  else
    let saved := mkPost (_id post) (title post) (content post) (imageKey post) (Some 0%Z) in
    set_collection (docs ++ [saved]);;
    mret saved.

(** *** [upload] *)

(** The [key] callback of the [multerS3] storage. *)
Definition upload_key (file : FilePart) : string :=
  "Images/" +:+ fieldname file +:+ "_" +:+ pretty (Date_now env)
    +:+ path_extname pf (originalname file).

(** [upload.single(name)]: no file part leaves [req.file] undefined; a
    file under another field name is refused; otherwise the file is
    sent to the bucket under [upload_key]. *)
Definition upload_single (name : string) (req : ComposeRequest) : Async (option S3File) :=
  match file_part req with
  | None => mret None
  | Some file =>
      if bool_decide (fieldname file = name)
      then
        let k := upload_key file in
        s3_request (Upload (S3_BUCKET_NAME pf) k);;
        await (s3_upload env k);;
        mret (Some (mkS3File file k))
      else throw (mkError "MulterError" "Unexpected field" None)
  end.

(** *** [app.get('/')] *)

Definition list_command (post : Post) : GetObjectCommand :=
  mkGetObject (S3_BUCKET_NAME pf) (imageKey post) (Some "image/jpeg").

(** The callback of [posts.map] up to its [await]: the call of
    [getSignedUrl]. *)
Definition list_item_start (post : Post) : Async () :=
  s3_request (Presign (list_command post) 3600).

(** The callback from its [await] on. *)
Definition list_item_resume (post : Post) : Async jsobj :=
  try_catch
    (signedUrl ← await (getSignedUrl env (list_command post) 3600);
     mret (<["imageUrl" := JString signedUrl]> (toObject post)))
    (λ err,
      console_error ("Error generating signed URL for " +:+ template (imageKey post)) err;;
      mret (<["imageUrl" := JNull]> (toObject post))).

Definition get_root (schedule : list nat) : Async Response :=
  try_catch
    (posts ← Post_find;
     start_all list_item_start posts;;
     postsWithUrls ← Promise_all (list_item_resume <$> posts) schedule;
     res_json 200 (SendJsonArray postsWithUrls))
    (λ err,
      console_error "Error fetching posts" err;;
      res_send 500 "Error fetching posts").

(** *** [app.post('/compose', upload.single('file'), ...)] *)

Definition compose_handler (req : ComposeRequest) (req_file : option S3File) : Async Response :=
  try_catch
    (k ← match req_file with
         | Some f => mret (key f)
         | None =>
             throw (mkError "TypeError"
                      "Cannot read properties of undefined (reading 'key')" None)
         end;
     let post := new_Post (postTitle req) (postContent req) (Some k) in
     post ← Post_save post;
     res_json 201 (SendJson (toObject post)))
    (λ err,
      console_error "Error saving post" err;;
      res_send 500 "Error saving post").

(** An error of the middleware goes to Express's own error handler, which
    no route of [index.js] replaces. *)
Definition post_compose (req : ComposeRequest) : Async Response := λ w,
  match upload_single "file" req w with
  | (w', Fulfilled req_file) => compose_handler req req_file w'
  | (w', Rejected err) => (w', Fulfilled (express_error err))
  | (w', Pending) => (w', Pending)
  end.

(** *** [app.get('/posts/:postID')] *)

Definition detail_command (post : Post) : GetObjectCommand :=
  mkGetObject (S3_BUCKET_NAME pf) (imageKey post) None.

Definition get_posts_postID (postID : string) : Async Response :=
  try_catch
    (foundPost ← Post_findOne postID;
     match foundPost with
     | None => res_send 404 "Post not found"
     | Some foundPost =>
         s3_request (Presign (detail_command foundPost) 3600);;
         signedUrl ← await (getSignedUrl env (detail_command foundPost) 3600);
         res_json 200 (SendJson (<["imageUrl" := JString signedUrl]> (toObject foundPost)))
     end)
    (λ err,
      console_error ("Error fetching post with ID " +:+ postID) err;;
      res_send 500 "Error fetching post").

(** *** [app.delete('/posts/:postID')] *)

Definition delete_command (post : Post) : DeleteObjectCommand :=
  mkDeleteObject (S3_BUCKET_NAME pf) (imageKey post).

Definition delete_posts_postID (postID : string) : Async Response :=
  try_catch
    (post ← Post_findById postID;
     match post with
     | None => res_send 404 "Post not found"
     | Some post =>
         s3_request (SendDelete (delete_command post));;
         await (s3Client_send env (delete_command post));;
         Post_deleteOne postID;;
         res_send 200 "Post and image deleted"
     end)
    (λ err,
      console_error ("Error deleting post with ID " +:+ postID) err;;
      res_send 500 "Error deleting post").
End Server.

(** ** Definitions used to state the properties *)

(** What [findOne({ _id: postID })] settles to on a collection. *)
Definition findOne_outcome (pf : Platform) (env : Env) (postID : string)
    (docs : list Post) : Promise (option Post) :=
  match castObjectId pf postID with
  | None => Rejected (mkError "CastError" ("Cast to ObjectId failed for value " +:+ postID) None)
  | Some id =>
      match db_fault env (OpFindOne id) with
      | Some e => Rejected e
      | None => Fulfilled (List.find (λ p, bool_decide (_id p = id)) docs)
      end
  end.

(** The collection has a unique index on [_id]. *)
Definition unique_ids (w : World) : Prop := NoDup (_id <$> collection w).

(** What a promise settles to does not depend on the world it resumes
    in. *)
Definition settles_to {A} (task : Async A) (r : Promise A) : Prop :=
  ∀ w, (task w).2 = r.

(** The invariant of the aggregate while the promises of [D] have been
    fulfilled and stored. *)
Definition all_inv {A} (rs : list (Promise A)) (D : gset nat) (st : AllState A) : Prop :=
  (length (values st) = length rs
   ∧ (∀ i, i ∈ D → ∃ x, rs !! i = Some (Fulfilled x) ∧ values st !! i = Some (Some x))
   ∧ (∀ i, i < length rs → i ∉ D → values st !! i = Some None)
   ∧ remaining st + size D = length rs
   ∧ ((∃ e, outcome st = Rejected e ∧ Rejected e ∈ rs)
      ∨ outcome st = if decide (remaining st = 0)
                     then Fulfilled (omap id (values st)) else Pending))%nat.

(** The value the callback of [posts.map] returns for a post: the
    document's own properties and [imageUrl], the signed URL or [null]. *)
Definition list_item (pf : Platform) (env : Env) (post : Post) : jsobj :=
  <["imageUrl" := match getSignedUrl env (list_command pf post) 3600 with
                  | Fulfilled url => JString url
                  | _ => JNull
                  end]> (toObject post).

(** What the promise of the callback settles to: the [catch] turns a
    rejected signing into a value. *)
Definition list_item_outcome (pf : Platform) (env : Env) (post : Post) : Promise jsobj :=
  match getSignedUrl env (list_command pf post) 3600 with
  | Pending => Pending
  | _ => Fulfilled (list_item pf env post)
  end.

(** The presign request the list route issues for a post. *)
Definition list_presign (pf : Platform) (post : Post) : S3Request :=
  Presign (list_command pf post) 3600.

(** What the [catch] of the callback of [posts.map] prints for a post:
    one line when signing is rejected, nothing otherwise. *)
Definition list_item_log (pf : Platform) (env : Env) (post : Post) : list (string * Error) :=
  match getSignedUrl env (list_command pf post) 3600 with
  | Rejected err => [("Error generating signed URL for " +:+ template (imageKey post), err)]
  | _ => []
  end.

(** ** A sample platform, sample answers and a sample collection *)

(** Node's [path.extname] on POSIX: the scan runs from the last character
    to the first and stops at the separator that begins the last path
    component. *)
Record ExtScan := mkExtScan {
  startDot : Z;
  startPart : Z;
  end_ : Z;
  matchedSlash : bool;
  preDotState : Z
}.

Fixpoint extname_scan (rev_path : list Ascii.ascii) (i : Z) (st : ExtScan) : ExtScan :=
  match rev_path with
  | [] => st
  | code :: before =>
      if Ascii.eqb code "/"%char then
        if negb (matchedSlash st)
        then mkExtScan (startDot st) (i + 1) (end_ st) (matchedSlash st) (preDotState st)
        else extname_scan before (i - 1) st
      else
        let st1 :=
          if (end_ st =? -1)%Z
          then mkExtScan (startDot st) (startPart st) (i + 1) false (preDotState st)
          else st in
        let st2 :=
          if Ascii.eqb code "."%char then
            if (startDot st1 =? -1)%Z
            then mkExtScan i (startPart st1) (end_ st1) (matchedSlash st1) (preDotState st1)
            else if negb (preDotState st1 =? 1)%Z
            then mkExtScan (startDot st1) (startPart st1) (end_ st1) (matchedSlash st1) 1
            else st1
          else if negb (startDot st1 =? -1)%Z
          then mkExtScan (startDot st1) (startPart st1) (end_ st1) (matchedSlash st1) (-1)
          else st1 in
        extname_scan before (i - 1) st2
  end.

Definition posix_extname (path : string) : string :=
  let st := extname_scan (reverse (String.list_ascii_of_string path))
              (Z.of_nat (String.length path) - 1)
              (mkExtScan (-1) 0 (-1) true 0) in
  if ((startDot st =? -1) || (end_ st =? -1) || (preDotState st =? 0)
      || ((preDotState st =? 1) && (startDot st =? end_ st - 1)
          && (startDot st =? startPart st + 1)))%Z
  then ""
  else String.substring (Z.to_nat (startDot st)) (Z.to_nat (end_ st - startDot st)) path.

(** An [_id] condition casts when it is 24 lower-case hexadecimal
    digits. *)
Definition is_hex_digit (c : Ascii.ascii) : bool :=
  let n := Ascii.N_of_ascii c in
  ((48 <=? n) && (n <=? 57) || (97 <=? n) && (n <=? 102))%N.

Definition cast_hex24 (s : string) : option ObjectId :=
  if bool_decide (String.length s = 24) && forallb is_hex_digit (String.list_ascii_of_string s)
  then Some s else None.

Definition sample_platform : Platform :=
  mkPlatform (Some "cclab-images") cast_hex24 posix_extname.

(** The presigner answers with a URL for a command that has a key and
    rejects a command without one. *)
Definition sample_getSignedUrl (c : GetObjectCommand) (expiresIn : Z) : Promise string :=
  match get_Key c with
  | Some k => Fulfilled ("https://cclab-images.s3.amazonaws.com/" +:+ k
                           +:+ "?X-Amz-Expires=" +:+ pretty expiresIn)
  | None => Rejected (mkError "Error" "No value provided for input HTTP label: Key." None)
  end.

(** Everything reachable. *)
Definition sample_env : Env :=
  mkEnv sample_getSignedUrl (λ _, Fulfilled ()) (λ _, Fulfilled ()) (λ _, None)
        1700000000000 "64b7f0c2a1d3e4f5a6b7c8d4".

(** The bucket refuses deletions. *)
Definition env_store_down : Env :=
  mkEnv sample_getSignedUrl
        (λ _, Rejected (mkError "ServiceUnavailable" "Service Unavailable" None))
        (λ _, Fulfilled ()) (λ _, None)
        1700000000000 "64b7f0c2a1d3e4f5a6b7c8d4".

(** The presigner is out of credentials. *)
Definition env_signer_down : Env :=
  mkEnv (λ _ _, Rejected (mkError "CredentialsProviderError" "Could not load credentials" None))
        (λ _, Fulfilled ()) (λ _, Fulfilled ()) (λ _, None)
        1700000000000 "64b7f0c2a1d3e4f5a6b7c8d4".

Definition post_a : Post :=
  mkPost "64b7f0c2a1d3e4f5a6b7c8d1" (Some "Hello") (Some "World")
         (Some "Images/file_1690000000000.png") (Some 0%Z).

(** A document stored without an [imageKey]. *)
Definition post_b : Post :=
  mkPost "64b7f0c2a1d3e4f5a6b7c8d2" (Some "No picture") None None (Some 0%Z).

Definition post_c : Post :=
  mkPost "64b7f0c2a1d3e4f5a6b7c8d3" (Some "Third") (Some "Post")
         (Some "Images/file_1690000000002.jpg") (Some 0%Z).

Definition sample_world : World := mkWorld [post_a; post_b; post_c] [] [].

Definition compose_hello : ComposeRequest :=
  mkCompose (Some "Hello") (Some "World") (Some (mkFilePart "file" "holiday.photo.PNG")).

Definition compose_no_file : ComposeRequest :=
  mkCompose (Some "Hello") (Some "World") None.

(** A later request: the clock has advanced and the next id is another
    one. *)
Definition env_later : Env :=
  mkEnv sample_getSignedUrl (λ _, Fulfilled ()) (λ _, Fulfilled ()) (λ _, None)
        1700000000001 "64b7f0c2a1d3e4f5a6b7c8d5".

(** The database is unreachable. *)
Definition env_db_down : Env :=
  mkEnv sample_getSignedUrl (λ _, Fulfilled ()) (λ _, Fulfilled ())
        (λ _, Some (mkError "MongoNetworkError" "connection closed" None))
        1700000000000 "64b7f0c2a1d3e4f5a6b7c8d4".

(** The database answers reads and refuses writes. *)
Definition env_db_read_only : Env :=
  mkEnv sample_getSignedUrl (λ _, Fulfilled ()) (λ _, Fulfilled ())
        (λ op, match op with
               | OpDeleteOne _ | OpSave _ =>
                   Some (mkError "MongoServerError" "not primary" None)
               | _ => None
               end)
        1700000000000 "64b7f0c2a1d3e4f5a6b7c8d4".

Definition empty_world : World := mkWorld [] [] [].

(** * Properties *)

(** ** Tactics *)

Ltac async_unfold :=
  unfold mbind, Async_bind, mret, Async_ret, try_catch, throw, await,
    console_error, s3_request, res_send, res_json, get_collection,
    set_collection, db_call, cast_id in *.

Ltac async_run := repeat (progress (async_unfold; simplify_eq/=)).

(** ** The [Post] model leaves the rest of the world alone *)

Lemma Post_findOne_run pf env postID w :
  Post_findOne pf env postID w = (w, findOne_outcome pf env postID (collection w)).
Proof.
  unfold Post_findOne, findOne_outcome. async_unfold.
  destruct (castObjectId pf postID) as [id|]; simpl; [|done].
  by destruct (db_fault env (OpFindOne id)).
Qed.

Lemma Post_findById_run pf env postID w :
  Post_findById pf env postID w = (w, findOne_outcome pf env postID (collection w)).
Proof. apply Post_findOne_run. Qed.

(** A lookup that settles on a document found the id castable and the
    database reachable. *)
Lemma findOne_outcome_fulfilled pf env postID docs o :
  findOne_outcome pf env postID docs = Fulfilled o →
  ∃ id, castObjectId pf postID = Some id ∧ db_fault env (OpFindOne id) = None ∧
        o = List.find (λ p, bool_decide (_id p = id)) docs.
Proof.
  unfold findOne_outcome. destruct (castObjectId pf postID) as [id|]; [|done].
  destruct (db_fault env (OpFindOne id)) eqn:E; [done|].
  intros [= <-]. by exists id.
Qed.

(** ** Unique identifiers *)

Lemma remove_first_sublist id l : remove_first id l `sublist_of` l.
Proof.
  induction l as [|p l IH]; simpl; [done|].
  case_decide; [by apply sublist_cons|by apply sublist_skip].
Qed.

Lemma find_remove_first id l :
  NoDup (_id <$> l) →
  List.find (λ p, bool_decide (_id p = id)) (remove_first id l) = None.
Proof.
  induction l as [|p l IH]; simpl; [done|].
  rewrite NoDup_cons. intros [Hp Hl].
  case_decide as E.
  - destruct (List.find _ l) as [q|] eqn:F; [|done].
    apply find_some in F as [Hq Hid%bool_decide_eq_true].
    destruct Hp. rewrite E, <-Hid.
    apply list_elem_of_fmap. exists q. split; [done|]. by apply list_elem_of_In.
  - simpl. rewrite bool_decide_eq_false_2 by done. by apply IH.
Qed.

(** ** The delete workflow *)

(** C1. When the lookup finds the post and the S3 delete is rejected, the
    delete route answers 500 "Error deleting post", the collection is
    what it was, and the same lookup still finds the post. *)
Theorem delete_store_failure_keeps_record pf env postID w post err :
  Post_findById pf env postID w = (w, Fulfilled (Some post)) →
  s3Client_send env (delete_command pf post) = Rejected err →
  ∃ w', delete_posts_postID pf env postID w
          = (w', Fulfilled (mkResponse 500 (SendText "Error deleting post")))
        ∧ collection w' = collection w
        ∧ Post_findById pf env postID w' = (w', Fulfilled (Some post)).
Proof.
  intros Hfind Hs3. rewrite Post_findById_run in Hfind.
  injection Hfind as Hfind.
  unfold delete_posts_postID. async_unfold.
  rewrite Post_findById_run, Hfind. simpl. rewrite Hs3. simpl.
  eexists. split; [reflexivity|]. split; [done|].
  rewrite Post_findById_run. simpl. by rewrite Hfind.
Qed.

(** C8. With unique ids, when the lookup finds the post, the S3 delete is
    fulfilled and the database accepts the [deleteOne], the delete route
    answers 200 "Post and image deleted"; a detail request for the same id
    that reaches the database afterwards answers 404 "Post not found". *)
Theorem delete_then_detail_not_found pf env env' postID id w post :
  unique_ids w →
  castObjectId pf postID = Some id →
  Post_findById pf env postID w = (w, Fulfilled (Some post)) →
  s3Client_send env (delete_command pf post) = Fulfilled () →
  db_fault env (OpDeleteOne id) = None →
  db_fault env' (OpFindOne id) = None →
  ∃ w', delete_posts_postID pf env postID w
          = (w', Fulfilled (mkResponse 200 (SendText "Post and image deleted")))
        ∧ get_posts_postID pf env' postID w'
          = (w', Fulfilled (mkResponse 404 (SendText "Post not found"))).
Proof.
  intros Huniq Hcast Hfind Hs3 Hdel Hlook. rewrite Post_findById_run in Hfind.
  injection Hfind as Hfind.
  unfold delete_posts_postID. async_unfold.
  rewrite Post_findById_run, Hfind. simpl. rewrite Hs3. simpl.
  unfold Post_deleteOne. async_unfold. rewrite Hcast. simpl. rewrite Hdel. simpl.
  eexists. split; [reflexivity|].
  unfold get_posts_postID. async_unfold. rewrite Post_findOne_run.
  unfold findOne_outcome. rewrite Hcast, Hlook. simpl.
  by rewrite find_remove_first.
Qed.

(** ** The detail workflow *)

(** C3. When the lookup finds the post and signing its key is rejected,
    the detail route answers 500 with the text "Error fetching post": no
    object, with or without [imageUrl], is sent. *)
Theorem detail_signing_failure_fails pf env postID w post err :
  Post_findOne pf env postID w = (w, Fulfilled (Some post)) →
  getSignedUrl env (detail_command pf post) 3600 = Rejected err →
  ∃ w', get_posts_postID pf env postID w
          = (w', Fulfilled (mkResponse 500 (SendText "Error fetching post")))
        ∧ collection w' = collection w.
Proof.
  intros Hfind Hsign. rewrite Post_findOne_run in Hfind.
  injection Hfind as Hfind.
  unfold get_posts_postID. async_unfold.
  rewrite Post_findOne_run, Hfind. simpl. rewrite Hsign. simpl.
  by eexists.
Qed.

(** ** Lookups that raise *)

(** C9. When the lookup by id is rejected, the detail route answers 500
    "Error fetching post" and the delete route answers 500 "Error deleting
    post"; neither answers 404, and the collection is untouched. *)
Theorem rejected_lookup_is_500 pf env postID w e1 e2 :
  Post_findOne pf env postID w = (w, Rejected e1) →
  Post_findById pf env postID w = (w, Rejected e2) →
  ∃ w1 w2,
    get_posts_postID pf env postID w
      = (w1, Fulfilled (mkResponse 500 (SendText "Error fetching post")))
    ∧ delete_posts_postID pf env postID w
      = (w2, Fulfilled (mkResponse 500 (SendText "Error deleting post")))
    ∧ collection w1 = collection w ∧ collection w2 = collection w.
Proof.
  intros H1 H2. rewrite Post_findOne_run in H1. rewrite Post_findById_run in H2.
  injection H1 as H1. injection H2 as H2.
  unfold get_posts_postID, delete_posts_postID. async_unfold.
  rewrite Post_findOne_run, Post_findById_run, H1. simpl.
  by do 2 eexists.
Qed.

(** An id that mongoose cannot cast makes the lookup raise. *)
Lemma malformed_id_rejected pf env postID w :
  castObjectId pf postID = None →
  ∃ e, Post_findOne pf env postID w = (w, Rejected e).
Proof.
  intros H. rewrite Post_findOne_run. unfold findOne_outcome. rewrite H. by eexists.
Qed.

(** Both routes answer 404 only after a lookup that settled on no
    document. *)
Lemma not_found_only_without_record pf env postID w w' r :
  get_posts_postID pf env postID w = (w', Fulfilled r)
  ∨ delete_posts_postID pf env postID w = (w', Fulfilled r) →
  status r = 404 →
  Post_findOne pf env postID w = (w, Fulfilled None).
Proof.
  rewrite Post_findOne_run.
  unfold get_posts_postID, delete_posts_postID, Post_deleteOne. async_unfold.
  rewrite Post_findById_run, Post_findOne_run.
  intros H Hst.
  destruct (findOne_outcome pf env postID (collection w)) as [|[post|]|e];
    destruct H as [H|H]; async_run; try done.
  - destruct (getSignedUrl env _ _); async_run.
  - destruct (s3Client_send env _); async_run.
    destruct (castObjectId pf postID) as [id|]; async_run.
    destruct (db_fault env (OpDeleteOne id)); async_run.
Qed.

(** ** [Promise.all] keeps the order of its input *)

Section PromiseAllFacts.
Context {A : Type}.
Local Open Scope nat_scope.
Implicit Types (tasks : list (Async A)) (rs : list (Promise A)).
Implicit Types (st : AllState A) (D : gset nat) (schedule : list nat).

Lemma all_inv_bound rs D st i : all_inv rs D st → i ∈ D → i < length rs.
Proof.
  intros (_ & HD & _) Hi. destruct (HD i Hi) as (x & Hx & _).
  by apply lookup_lt_Some in Hx.
Qed.

Lemma all_inv_size rs D st : all_inv rs D st → size D ≤ length rs.
Proof.
  intros Hinv. rewrite <-(size_set_seq (C:=gset nat) 0 (length rs)).
  apply subseteq_size. intros i Hi. apply elem_of_set_seq.
  apply (all_inv_bound _ _ _ _ Hinv) in Hi. lia.
Qed.

Lemma all_inv_init rs : all_inv rs ∅ (all_init (length rs)).
Proof.
  unfold all_inv, all_init. cbn [values remaining outcome]. rewrite length_replicate.
  split; [done|]. split; [set_solver|]. split; [|split].
  - intros i Hi _. by apply lookup_replicate_2.
  - rewrite size_empty. lia.
  - right. destruct (length rs) eqn:E.
    + by rewrite decide_True.
    + by rewrite decide_False.
Qed.

Lemma all_inv_resolve rs D st i x :
  all_inv rs D st → rs !! i = Some (Fulfilled x) →
  all_inv rs ({[i]} ∪ D) (resolve_element i x st).
Proof.
  intros Hinv Hi. pose proof Hinv as (Hlen & HD & HnD & Hrem & Hout).
  pose proof (lookup_lt_Some _ _ _ Hi) as Hlt.
  unfold resolve_element. destruct (decide (i ∈ D)) as [HiD|HiD].
  - destruct (HD i HiD) as (y & _ & ->).
    assert ({[i]} ∪ D = D) as ->; [|done].
    apply subseteq_union_1_L. by apply singleton_subseteq_l.
  - rewrite (HnD i Hlt HiD).
    assert (size ({[i]} ∪ D) = S (size D)) as Hsz.
    { rewrite size_union by set_solver. by rewrite size_singleton. }
    assert (size D < length rs) as Hroom.
    { assert (({[i]} ∪ D : gset nat) ⊆ set_seq 0 (length rs)) as Hsub.
      { intros j [->%elem_of_singleton|Hj]%elem_of_union; apply elem_of_set_seq.
        - lia.
        - apply (all_inv_bound _ _ _ _ Hinv) in Hj. lia. }
      apply subseteq_size in Hsub. rewrite size_set_seq in Hsub. lia. }
    unfold all_inv. cbn [values remaining outcome]. rewrite length_insert.
    split_and!; [done| | |lia|].
    + intros j [->%elem_of_singleton|Hj]%elem_of_union.
      * exists x. split; [done|]. apply list_lookup_insert_eq. lia.
      * destruct (decide (i = j)) as [->|Hne]; [done|].
        destruct (HD j Hj) as (y & ? & ?). exists y.
        by rewrite list_lookup_insert_ne.
    + intros j Hj Hnj. rewrite list_lookup_insert_ne.
      * apply HnD; [done|]. intros HjD. by apply Hnj, elem_of_union_r.
      * intros ->. by apply Hnj, elem_of_union_l, elem_of_singleton.
    + destruct Hout as [(e & He & Hin)|Hout].
      * left. exists e. unfold settle_with. by rewrite He.
      * right. unfold settle_with. rewrite Hout.
        rewrite decide_False by lia.
        destruct (remaining st) as [|[|r]] eqn:Er; simpl; [lia|done|done].
Qed.

Lemma all_inv_reject rs D st e :
  all_inv rs D st → Rejected e ∈ rs → all_inv rs D (reject_element e st).
Proof.
  intros (Hlen & HD & HnD & Hrem & Hout) He.
  unfold all_inv, reject_element, settle_with. cbn [values remaining outcome].
  split_and!; [done..|].
  destruct Hout as [(e' & -> & Hin)|Hout]; [left; eauto|].
  rewrite Hout. case_decide; [by right|left; eauto].
Qed.

(** Running a schedule keeps the invariant and stores every scheduled
    promise that is fulfilled. *)
Lemma settle_inv tasks rs schedule :
  Forall2 settles_to tasks rs →
  ∀ st w D, all_inv rs D st →
  ∃ D', D ⊆ D'
    ∧ (∀ i x, i ∈ schedule → rs !! i = Some (Fulfilled x) → i ∈ D')
    ∧ all_inv rs D' (settle tasks schedule st w).2.
Proof.
  intros Htasks. induction schedule as [|i rest IH]; intros st w D Hinv; simpl.
  { exists D. split_and!; [done|set_solver|done]. }
  destruct (tasks !! i) as [task|] eqn:Et.
  - destruct (Forall2_lookup_l _ _ _ _ _ Htasks Et) as (r & Er & Hr).
    specialize (Hr w). destruct (task w) as [w1 p]. simpl in Hr. subst p.
    destruct r as [|x|e].
    + destruct (IH st w1 D Hinv) as (D' & ? & Hsch & ?).
      exists D'. split_and!; [done| |done].
      intros j y [->|Hj]%elem_of_cons Hy; [congruence|eauto].
    + destruct (IH (resolve_element i x st) w1 ({[i]} ∪ D)) as (D' & ? & Hsch & ?).
      { by apply all_inv_resolve. }
      exists D'. split_and!; [set_solver| |done].
      intros j y [->|Hj]%elem_of_cons Hy; [set_solver|eauto].
    + destruct (IH (reject_element e st) w1 D) as (D' & ? & Hsch & ?).
      { apply all_inv_reject; [done|]. by eapply list_elem_of_lookup_2. }
      exists D'. split_and!; [done| |done].
      intros j y [->|Hj]%elem_of_cons Hy; [congruence|eauto].
  - destruct (IH st w D Hinv) as (D' & ? & Hsch & ?).
    exists D'. split_and!; [done| |done].
    intros j y [->|Hj]%elem_of_cons Hy; [|eauto].
    apply lookup_lt_Some in Hy. apply lookup_ge_None in Et.
    apply Forall2_length in Htasks. unfold Async in *. lia.
Qed.

(** Once every slot is filled, the stored values are the fulfilled values
    of the promises, slot by slot. *)
Lemma filled_values rs (vals : list (option A)) :
  length vals = length rs →
  (∀ i, i < length rs → ∃ x, rs !! i = Some (Fulfilled x) ∧ vals !! i = Some (Some x)) →
  rs = Fulfilled <$> omap id vals.
Proof.
  revert rs. induction vals as [|v vals IH]; intros [|r rs] Hlen Hall; simplify_eq/=.
  { done. }
  destruct (Hall 0) as (x & Hr & Hv); [lia|]. simplify_eq/=.
  f_equal. apply IH; [done|]. intros i Hi. apply (Hall (S i)). lia.
Qed.

Lemma all_inv_fulfilled rs D st vs :
  all_inv rs D st → outcome st = Fulfilled vs → rs = Fulfilled <$> vs.
Proof.
  intros Hinv Hvs. pose proof Hinv as (Hlen & HD & HnD & Hrem & Hout).
  destruct Hout as [(e & He & _)|Hout]; [congruence|].
  rewrite Hvs in Hout. case_decide as Hz; [|done]. injection Hout as ->.
  apply filled_values; [done|]. intros i Hi. apply HD.
  assert (D = set_seq 0 (length rs)) as ->; [|apply elem_of_set_seq; lia].
  apply set_subseteq_size_eq.
  - intros j Hj. apply elem_of_set_seq. apply (all_inv_bound _ _ _ _ Hinv) in Hj. lia.
  - rewrite size_set_seq. lia.
Qed.

(** Safety: whatever the schedule, when the aggregate is fulfilled its
    [i]-th value is the value the [i]-th promise was fulfilled with. *)
Lemma Promise_all_fulfilled tasks rs schedule w w' vs :
  Forall2 settles_to tasks rs →
  Promise_all tasks schedule w = (w', Fulfilled vs) →
  rs = Fulfilled <$> vs.
Proof.
  intros Htasks. unfold Promise_all.
  destruct (settle_inv tasks rs schedule Htasks (all_init (length tasks)) w ∅)
    as (D & _ & _ & Hinv).
  { rewrite (Forall2_length _ _ _ Htasks). apply all_inv_init. }
  destruct (settle _ _ _ _) as [w1 st]. simpl in Hinv. intros [= <- Hvs].
  by eapply all_inv_fulfilled.
Qed.

(** Progress: when every promise is fulfilled and the schedule reaches
    each of them, the aggregate is fulfilled with the values in input
    order. *)
Lemma Promise_all_complete tasks vs schedule w :
  Forall2 settles_to tasks (Fulfilled <$> vs) →
  (∀ i, i < length tasks → i ∈ schedule) →
  (Promise_all tasks schedule w).2 = Fulfilled vs.
Proof.
  intros Htasks Hcover. unfold Promise_all.
  pose proof (Forall2_length _ _ _ Htasks) as Hlen.
  destruct (settle_inv tasks _ schedule Htasks (all_init (length tasks)) w ∅)
    as (D & _ & Hsch & Hinv).
  { rewrite Hlen. apply all_inv_init. }
  destruct (settle _ _ _ _) as [w1 st]. simpl in *.
  pose proof Hinv as (_ & _ & _ & Hrem & Hout).
  assert (length (Fulfilled <$> vs) ≤ size D) as Hfull.
  { rewrite <-(size_set_seq (C:=gset nat) 0 (length (Fulfilled <$> vs))).
    apply subseteq_size. intros i [_ Hi]%elem_of_set_seq. simpl in Hi.
    destruct (lookup_lt_is_Some_2 (Fulfilled <$> vs) i Hi) as [r Hr].
    pose proof Hr as Hr'. rewrite list_lookup_fmap in Hr'.
    destruct (vs !! i) as [x|]; simplify_eq/=.
    eapply Hsch; [|done]. apply Hcover. lia. }
  destruct Hout as [(e & _ & He)|Hout].
  { apply list_elem_of_fmap in He as (? & ? & _). done. }
  rewrite decide_True in Hout by lia.
  pose proof (all_inv_fulfilled _ _ _ _ Hinv Hout) as Heq.
  apply (inj (fmap Fulfilled)) in Heq. by rewrite Hout, <-Heq.
Qed.
End PromiseAllFacts.

(** ** The list workflow *)

Section ListFacts.
Context (pf : Platform) (env : Env).
Local Open Scope nat_scope.

Lemma list_item_resume_settles post :
  settles_to (list_item_resume pf env post) (list_item_outcome pf env post).
Proof.
  intros w. unfold list_item_resume, list_item_outcome, list_item. async_unfold.
  by destruct (getSignedUrl env _ _).
Qed.

Lemma list_tasks_settle posts :
  Forall2 settles_to (list_item_resume pf env <$> posts) (list_item_outcome pf env <$> posts).
Proof.
  apply Forall2_fmap, Forall_Forall2_diag, Forall_forall.
  intros post _. apply list_item_resume_settles.
Qed.

(** Resuming a callback prints at most one line; it touches neither the
    collection nor S3. *)
Lemma list_item_resume_world post w :
  collection (list_item_resume pf env post w).1 = collection w
  ∧ s3_requests (list_item_resume pf env post w).1 = s3_requests w.
Proof.
  unfold list_item_resume. async_unfold. by destruct (getSignedUrl env _ _).
Qed.

Lemma settle_list_world posts schedule :
  ∀ st w,
    collection (settle (list_item_resume pf env <$> posts) schedule st w).1 = collection w
    ∧ s3_requests (settle (list_item_resume pf env <$> posts) schedule st w).1 = s3_requests w.
Proof.
  induction schedule as [|i rest IH]; intros st w; simpl; [done|].
  rewrite list_lookup_fmap. destruct (posts !! i) as [post|]; simpl; [|apply IH].
  pose proof (list_item_resume_world post w) as [Hc Hs].
  destruct (list_item_resume pf env post w) as [w1 [|x|e]]; simpl in *;
    rewrite <-Hc, <-Hs; apply IH.
Qed.

Lemma start_all_run posts w :
  start_all (list_item_start pf) posts w
  = (mkWorld (collection w) (s3_requests w ++ (list_presign pf <$> posts)) (stderr w),
     Fulfilled ()).
Proof.
  revert w. induction posts as [|post posts IH]; intros w; simpl.
  - rewrite app_nil_r. by destruct w.
  - unfold list_item_start. async_unfold. rewrite IH. simpl.
    by rewrite <-app_assoc.
Qed.

Lemma Post_find_run w :
  Post_find env w = (w, match db_fault env OpFind with
                        | Some e => Rejected e
                        | None => Fulfilled (collection w)
                        end).
Proof. unfold Post_find. async_unfold. by destruct (db_fault env OpFind). Qed.

(** The list route, once [find] has answered: the presign requests go out
    in collection order, then the route waits for [Promise.all]. *)
Lemma get_root_run schedule w :
  db_fault env OpFind = None →
  ∃ w',
    collection w' = collection w
    ∧ s3_requests w' = (s3_requests w ++ (list_presign pf <$> collection w))%list
    ∧ get_root pf env schedule w
      = (w', match (Promise_all (list_item_resume pf env <$> collection w) schedule
                      (mkWorld (collection w)
                         (s3_requests w ++ (list_presign pf <$> collection w))
                         (stderr w))).2 with
             | Fulfilled items => Fulfilled (mkResponse 200 (SendJsonArray items))
             | Pending => Pending
             | Rejected _ => Fulfilled (mkResponse 500 (SendText "Error fetching posts"))
             end).
Proof.
  intros Hdb. unfold get_root. async_unfold.
  rewrite Post_find_run, Hdb. simpl. rewrite start_all_run. simpl.
  unfold Promise_all.
  pose proof (settle_list_world (collection w) schedule
                (all_init (length (list_item_resume pf env <$> collection w)))
                (mkWorld (collection w)
                   (s3_requests w ++ (list_presign pf <$> collection w)) (stderr w)))
    as [Hc Hs].
  destruct (settle _ _ _ _) as [w1 st]. simpl in *.
  destruct (outcome st); simpl. all: eexists; split; [|split; [|reflexivity]]; done.
Qed.

(** Safety of the list route: whatever the schedule, a 200 carries one
    item per document, in collection order. *)
Lemma get_root_200 schedule w w' r :
  get_root pf env schedule w = (w', Fulfilled r) →
  status r = 200 →
  ∃ items, body r = SendJsonArray items
           ∧ list_item_outcome pf env <$> collection w = Fulfilled <$> items.
Proof.
  intros Hrun Hst.
  destruct (db_fault env OpFind) as [e|] eqn:Hdb.
  { unfold get_root in Hrun. async_unfold. rewrite Post_find_run, Hdb in Hrun.
    async_run. }
  destruct (get_root_run schedule w Hdb) as (w1 & _ & _ & Heq).
  rewrite Heq in Hrun. clear Heq.
  destruct (Promise_all _ _ _) as [w2 [|items|e]] eqn:Hall; simplify_eq/=.
  exists items. split; [done|].
  by eapply Promise_all_fulfilled; [apply list_tasks_settle|].
Qed.

(** Progress of the list route: when [find] answers, every signing
    settles and the schedule reaches every callback, the route answers 200
    with the items in collection order. *)
Lemma get_root_complete schedule w :
  db_fault env OpFind = None →
  (∀ post, post ∈ collection w → getSignedUrl env (list_command pf post) 3600 ≠ Pending) →
  (∀ i, i < length (collection w) → i ∈ schedule) →
  ∃ w', get_root pf env schedule w
          = (w', Fulfilled (mkResponse 200 (SendJsonArray (list_item pf env <$> collection w))))
        ∧ collection w' = collection w.
Proof.
  intros Hdb Hsettle Hcover.
  destruct (get_root_run schedule w Hdb) as (w1 & Hc & _ & Heq).
  exists w1. split; [|done]. rewrite Heq. f_equal.
  rewrite (Promise_all_complete _ (list_item pf env <$> collection w)); [done| |].
  - replace (Fulfilled <$> (list_item pf env <$> collection w))
      with (list_item_outcome pf env <$> collection w); [apply list_tasks_settle|].
    rewrite <-list_fmap_compose. apply list_fmap_ext. intros i post Hpost.
    unfold list_item_outcome. simpl.
    specialize (Hsettle post (list_elem_of_lookup_2 _ _ _ Hpost)).
    by destruct (getSignedUrl env _ _).
  - by rewrite length_fmap.
Qed.

Lemma schedule_covers schedule n :
  schedule ≡ₚ seq 0 n → ∀ i, i < n → i ∈ schedule.
Proof.
  intros Hperm i Hi. rewrite Hperm. apply list_elem_of_In, in_seq. lia.
Qed.
End ListFacts.

(** ** What a serialised post contains *)

Lemma lookup_set_defined_ne k k' v (o : jsobj) :
  k ≠ k' → set_defined k v o !! k' = o !! k'.
Proof. intros Hne. destruct v; simpl; [by rewrite lookup_insert_ne|done]. Qed.

Lemma lookup_set_defined_eq k v (o : jsobj) :
  o !! k = None → set_defined k v o !! k = v.
Proof. intros Ho. destruct v; simpl; [by rewrite lookup_insert_eq|done]. Qed.

Lemma toObject_id post : toObject post !! "_id" = Some (JString (_id post)).
Proof.
  unfold toObject. rewrite !lookup_set_defined_ne by done.
  by rewrite lookup_singleton_eq.
Qed.

Lemma toObject_imageKey post : toObject post !! "imageKey" = JString <$> imageKey post.
Proof.
  unfold toObject. rewrite lookup_set_defined_ne by done.
  apply lookup_set_defined_eq. rewrite !lookup_set_defined_ne by done.
  by rewrite lookup_singleton_ne.
Qed.


Lemma list_item_id pf env post :
  list_item pf env post !! "_id" = Some (JString (_id post)).
Proof. unfold list_item. rewrite lookup_insert_ne by done. apply toObject_id. Qed.

Lemma list_item_imageKey pf env post :
  list_item pf env post !! "imageKey" = JString <$> imageKey post.
Proof. unfold list_item. rewrite lookup_insert_ne by done. apply toObject_imageKey. Qed.

(** C2. When [find] answers, the callbacks complete in any order, signing
    is rejected for the post at one position [bad] and fulfilled for the
    post at every other position, the list route answers 200 with one item
    per post; the item at [bad], and no other, has [imageUrl: null], and
    every other item carries the URL signed for its post. *)
Theorem list_tolerates_one_signing_failure pf env schedule w bad badPost err :
  db_fault env OpFind = None →
  schedule ≡ₚ seq 0 (length (collection w)) →
  collection w !! bad = Some badPost →
  getSignedUrl env (list_command pf badPost) 3600 = Rejected err →
  (∀ i post, collection w !! i = Some post → i ≠ bad →
     ∃ url, getSignedUrl env (list_command pf post) 3600 = Fulfilled url) →
  ∃ w' items,
    get_root pf env schedule w
      = (w', Fulfilled (mkResponse 200 (SendJsonArray items)))
    ∧ length items = length (collection w)
    ∧ (∀ i o, items !! i = Some o → (o !! "imageUrl" = Some JNull ↔ i = bad))
    ∧ (∀ i post, collection w !! i = Some post → i ≠ bad →
         ∃ o url, items !! i = Some o
                  ∧ getSignedUrl env (list_command pf post) 3600 = Fulfilled url
                  ∧ o !! "imageUrl" = Some (JString url)).
Proof.
  intros Hdb Hperm Hbad Herr Hgood.
  destruct (get_root_complete pf env schedule w Hdb) as (w' & Hrun & _).
  { intros post [i Hi]%list_elem_of_lookup_1.
    destruct (decide (i = bad)) as [->|Hne]; [|by destruct (Hgood i post Hi Hne) as [? ->]].
    simplify_eq. by rewrite Herr. }
  { by apply schedule_covers. }
  exists w', (list_item pf env <$> collection w).
  split; [done|]. split; [by rewrite length_fmap|]. split.
  - intros i o. rewrite list_lookup_fmap.
    destruct (collection w !! i) as [post|] eqn:Hi; [|done]. intros [= <-].
    unfold list_item. rewrite lookup_insert_eq.
    destruct (decide (i = bad)) as [->|Hne].
    + simplify_eq. by rewrite Herr.
    + destruct (Hgood i post Hi Hne) as [url ->]. naive_solver.
  - intros i post Hi Hne. destruct (Hgood i post Hi Hne) as [url Hurl].
    exists (list_item pf env post), url. rewrite list_lookup_fmap, Hi.
    split; [done|]. split; [done|].
    unfold list_item. by rewrite lookup_insert_eq, Hurl.
Qed.

(** C7. When [find] answers and every signing settles, then for every
    order in which the callbacks complete the list route answers 200 with
    one item per post, and the item at position [i] is the one built from
    the post at position [i] of the collection (it carries that post's
    [_id]); any other schedule that leads to a 200 leads to the same
    sequence of items. *)
Theorem list_keeps_repository_order pf env schedule w :
  db_fault env OpFind = None →
  schedule ≡ₚ seq 0 (length (collection w)) →
  (∀ post, post ∈ collection w → getSignedUrl env (list_command pf post) 3600 ≠ Pending) →
  ∃ w' items,
    get_root pf env schedule w
      = (w', Fulfilled (mkResponse 200 (SendJsonArray items)))
    ∧ length items = length (collection w)
    ∧ (∀ i post, collection w !! i = Some post →
         items !! i = Some (list_item pf env post)
         ∧ list_item pf env post !! "_id" = Some (JString (_id post)))
    ∧ (∀ schedule' w'' r,
         get_root pf env schedule' w = (w'', Fulfilled r) → status r = 200 →
         body r = SendJsonArray items).
Proof.
  intros Hdb Hperm Hsettle.
  destruct (get_root_complete pf env schedule w Hdb Hsettle) as (w' & Hrun & _).
  { by apply schedule_covers. }
  exists w', (list_item pf env <$> collection w).
  split; [done|]. split; [by rewrite length_fmap|]. split.
  - intros i post Hi. rewrite list_lookup_fmap, Hi. split; [done|apply list_item_id].
  - intros schedule' w'' r Hrun' Hst.
    destruct (get_root_200 _ _ _ _ _ _ Hrun' Hst) as (items' & -> & Heq).
    f_equal. apply (inj (fmap Fulfilled)). rewrite <-Heq.
    rewrite <-list_fmap_compose. apply list_fmap_ext. intros i post Hpost.
    unfold list_item_outcome. simpl.
    specialize (Hsettle post (list_elem_of_lookup_2 _ _ _ Hpost)).
    by destruct (getSignedUrl env _ _).
Qed.

(** C10. The list route asks for one presigned GET per post, in
    collection order, each with [ResponseContentType: 'image/jpeg'] and
    [expiresIn: 3600], whatever the key; the detail route asks for a
    single presigned GET of the found post's key with no
    [ResponseContentType] and the same [expiresIn: 3600]. *)
Theorem signing_requests_of_list_and_detail pf env schedule postID w post :
  db_fault env OpFind = None →
  Post_findOne pf env postID w = (w, Fulfilled (Some post)) →
  s3_requests (get_root pf env schedule w).1
    = (s3_requests w
       ++ ((λ p, Presign (mkGetObject (S3_BUCKET_NAME pf) (imageKey p) (Some "image/jpeg")) 3600)
             <$> collection w))%list
  ∧ Presign (mkGetObject (S3_BUCKET_NAME pf) (imageKey post) (Some "image/jpeg")) 3600
      ∈ s3_requests (get_root pf env schedule w).1
  ∧ s3_requests (get_posts_postID pf env postID w).1
    = (s3_requests w
       ++ [Presign (mkGetObject (S3_BUCKET_NAME pf) (imageKey post) None) 3600])%list.
Proof.
  intros Hdb Hfind. rewrite Post_findOne_run in Hfind. injection Hfind as Hfind.
  destruct (get_root_run pf env schedule w Hdb) as (w' & _ & Hs3 & ->).
  simpl. rewrite Hs3. split; [done|]. split.
  - apply elem_of_app. right.
    apply findOne_outcome_fulfilled in Hfind as (id & _ & _ & Hfound).
    symmetry in Hfound. apply find_some in Hfound as [Hin _].
    apply list_elem_of_fmap. exists post. split; [done|]. by apply list_elem_of_In.
  - unfold get_posts_postID. async_unfold. rewrite Post_findOne_run, Hfind. simpl.
    by destruct (getSignedUrl env _ _).
Qed.

(** ** The compose workflow *)

Lemma string_app_assoc (s1 s2 s3 : string) : (s1 +:+ s2) +:+ s3 = s1 +:+ s2 +:+ s3.
Proof.
  induction s1 as [|a s1 IH]; [done|].
  change (String a ((s1 +:+ s2) +:+ s3) = String a (s1 +:+ s2 +:+ s3)).
  by f_equal.
Qed.

Lemma express_error_status err : (400 ≤ status (express_error err) < 600)%nat.
Proof.
  unfold express_error. simpl. destruct (err_status err) as [code|]; [|lia].
  case_bool_decide; lia.
Qed.

(** The compose route, case by case: with no file part the handler runs
    with [req.file] undefined and its [catch] answers; otherwise the
    response is a 201 exactly when the upload, the insert and the id were
    all fine. *)
Lemma post_compose_201 pf env req w w' r :
  post_compose pf env req w = (w', Fulfilled r) →
  status r = 201 →
  ∃ file,
    file_part req = Some file
    ∧ fieldname file = "file"
    ∧ let saved := mkPost (new_ObjectId env) (postTitle req) (postContent req)
                     (Some (upload_key pf env file)) (Some 0%Z) in
      collection w' = (collection w ++ [saved])%list
      ∧ r = mkResponse 201 (SendJson (toObject saved)).
Proof.
  unfold post_compose, upload_single, compose_handler, Post_save, new_Post.
  intros Hrun Hst. async_unfold.
  destruct (file_part req) as [file|]; simpl in Hrun; [|by async_run].
  exists file. split; [done|].
  case_bool_decide as Hname; simpl in Hrun.
  2:{ injection Hrun as _ <-. pose proof (express_error_status
        (mkError "MulterError" "Unexpected field" None)). lia. }
  split; [done|].
  destruct (s3_upload env _) as [| |e]; simpl in Hrun; [done| |].
  2:{ injection Hrun as _ <-. pose proof (express_error_status e). lia. }
  destruct (db_fault env _); simpl in Hrun; [by async_run|].
  case_bool_decide; simpl in Hrun; by async_run.
Qed.

(** C4 (as the code has it). A compose request with no file part is
    answered 500 "Error saving post", and the collection is what it was. *)
Theorem compose_without_file_is_500 pf env req w :
  file_part req = None →
  ∃ w', post_compose pf env req w
          = (w', Fulfilled (mkResponse 500 (SendText "Error saving post")))
        ∧ collection w' = collection w.
Proof.
  intros Hfile. unfold post_compose, upload_single, compose_handler.
  rewrite Hfile. async_unfold. simpl. by eexists.
Qed.

(** C6. When the compose route answers 201, the request had a file part
    and the document added to the collection has the key
    ["Images/" + fieldname + "_" + Date.now() + path.extname(originalname)];
    the key is not the empty string and ends with the extension of the
    original name. *)
Theorem composed_key_form pf env req w w' r :
  post_compose pf env req w = (w', Fulfilled r) →
  status r = 201 →
  ∃ file saved k,
    file_part req = Some file
    ∧ collection w' = (collection w ++ [saved])%list
    ∧ body r = SendJson (toObject saved)
    ∧ imageKey saved = Some k
    ∧ k = "Images/" +:+ fieldname file +:+ "_" +:+ pretty (Date_now env)
            +:+ path_extname pf (originalname file)
    ∧ k ≠ ""
    ∧ ∃ stem, k = stem +:+ path_extname pf (originalname file).
Proof.
  intros Hrun Hst.
  destruct (post_compose_201 _ _ _ _ _ _ Hrun Hst) as (file & Hfile & _ & Hcoll & ->).
  eexists file, _, _. split; [done|]. split; [exact Hcoll|].
  split; [done|]. split; [done|]. split; [done|]. split; [done|].
  exists ("Images/" +:+ fieldname file +:+ "_" +:+ pretty (Date_now env)).
  unfold upload_key. by rewrite !string_app_assoc.
Qed.

(** ** [imageKey] in the responses *)

Lemma list_item_outcome_fulfilled pf env post o :
  list_item_outcome pf env post = Fulfilled o → o = list_item pf env post.
Proof.
  unfold list_item_outcome. destruct (getSignedUrl env _ _); by intros [= <-].
Qed.

(** C5 (as the code has it). Every post object the three routes send has
    the document's own [imageKey]: each item of a 200 of the list route,
    the object of a 201 of the compose route (the key just stored), and
    the object of a 200 of the detail route. *)
Theorem responses_carry_imageKey pf env :
  (∀ schedule w w' r,
     get_root pf env schedule w = (w', Fulfilled r) → status r = 200 →
     ∃ items, body r = SendJsonArray items
       ∧ Forall2 (λ post o, o !! "imageKey" = JString <$> imageKey post)
           (collection w) items)
  ∧ (∀ req w w' r,
       post_compose pf env req w = (w', Fulfilled r) → status r = 201 →
       ∃ o saved k, body r = SendJson o
         ∧ last (collection w') = Some saved
         ∧ imageKey saved = Some k
         ∧ o !! "imageKey" = Some (JString k))
  ∧ (∀ postID w w' r,
       get_posts_postID pf env postID w = (w', Fulfilled r) → status r = 200 →
       ∃ o post, body r = SendJson o
         ∧ Post_findOne pf env postID w = (w, Fulfilled (Some post))
         ∧ o !! "imageKey" = JString <$> imageKey post).
Proof.
  split; [|split].
  - intros schedule w w' r Hrun Hst.
    destruct (get_root_200 _ _ _ _ _ _ Hrun Hst) as (items & Hbody & Heq).
    exists items. split; [done|].
    apply list_eq_Forall2 in Heq. rewrite Forall2_fmap in Heq.
    eapply Forall2_impl; [exact Heq|]. simpl. intros post o Ho.
    apply list_item_outcome_fulfilled in Ho as ->. apply list_item_imageKey.
  - intros req w w' r Hrun Hst.
    destruct (post_compose_201 _ _ _ _ _ _ Hrun Hst) as (file & _ & _ & Hcoll & ->).
    eexists _, _, _. split; [done|]. rewrite Hcoll, last_snoc.
    split; [done|]. split; [done|]. by rewrite toObject_imageKey.
  - intros postID w w' r Hrun Hst. rewrite Post_findOne_run.
    unfold get_posts_postID in Hrun. async_unfold. rewrite Post_findOne_run in Hrun.
    destruct (findOne_outcome pf env postID (collection w)) as [|[post|]|e];
      async_run; try done.
    destruct (getSignedUrl env _ _); async_run; try done.
    eexists _, post. split; [done|]. split; [done|].
    rewrite lookup_insert_ne by done. apply toObject_imageKey.
Qed.

(** ** The unique index is kept *)

Lemma get_root_collection pf env schedule w :
  collection (get_root pf env schedule w).1 = collection w.
Proof.
  destruct (db_fault env OpFind) as [e|] eqn:Hdb.
  - unfold get_root. async_unfold. by rewrite Post_find_run, Hdb.
  - by destruct (get_root_run pf env schedule w Hdb) as (w' & Hc & _ & ->).
Qed.

Lemma get_posts_postID_collection pf env postID w :
  collection (get_posts_postID pf env postID w).1 = collection w.
Proof.
  unfold get_posts_postID. async_unfold. rewrite Post_findOne_run.
  destruct (findOne_outcome _ _ _ _) as [|[post|]|e]; simpl; try done.
  by destruct (getSignedUrl env _ _).
Qed.

Lemma delete_posts_postID_collection pf env postID w :
  collection (delete_posts_postID pf env postID w).1 `sublist_of` collection w.
Proof.
  unfold delete_posts_postID, Post_deleteOne. async_unfold. rewrite Post_findById_run.
  destruct (findOne_outcome _ _ _ _) as [|[post|]|e]; simpl; try done.
  destruct (s3Client_send env _); simpl; try done.
  destruct (castObjectId pf postID) as [id|]; simpl; try done.
  destruct (db_fault env (OpDeleteOne id)); simpl; try done.
  apply remove_first_sublist.
Qed.

Lemma post_compose_collection pf env req w :
  unique_ids w → unique_ids (post_compose pf env req w).1.
Proof.
  unfold unique_ids, post_compose, upload_single, compose_handler, Post_save, new_Post.
  intros Huniq. async_unfold.
  destruct (file_part req) as [file|]; simpl; [|done].
  case_bool_decide; simpl; [|done].
  destruct (s3_upload env _); simpl; try done.
  destruct (db_fault env _); simpl; [done|].
  case_bool_decide as Hin; simpl; [done|].
  rewrite fmap_app. apply NoDup_app. split; [done|]. split; [|apply NoDup_singleton].
  intros id Hid ->%list_elem_of_singleton. done.
Qed.

(** Every route takes a collection with unique ids to one with unique
    ids. *)
Lemma routes_keep_unique_ids pf env w :
  unique_ids w →
  (∀ schedule, unique_ids (get_root pf env schedule w).1)
  ∧ (∀ req, unique_ids (post_compose pf env req w).1)
  ∧ (∀ postID, unique_ids (get_posts_postID pf env postID w).1)
  ∧ (∀ postID, unique_ids (delete_posts_postID pf env postID w).1).
Proof.
  intros Huniq. unfold unique_ids in *. split_and!.
  - intros. by rewrite get_root_collection.
  - intros. by apply post_compose_collection.
  - intros. by rewrite get_posts_postID_collection.
  - intros postID. eapply sublist_NoDup; [done|].
    apply fmap_sublist, delete_posts_postID_collection.
Qed.

(** * The properties on the sample collection *)

(** The S3 delete of [post_a]'s image is refused: 500, and [post_a] is
    still found. *)
Lemma delete_store_failure_keeps_record_witness :
  ∃ w', delete_posts_postID sample_platform env_store_down
          "64b7f0c2a1d3e4f5a6b7c8d1" sample_world
          = (w', Fulfilled (mkResponse 500 (SendText "Error deleting post")))
        ∧ collection w' = collection sample_world
        ∧ Post_findById sample_platform env_store_down
            "64b7f0c2a1d3e4f5a6b7c8d1" w' = (w', Fulfilled (Some post_a)).
Proof.
  apply (delete_store_failure_keeps_record sample_platform env_store_down
           "64b7f0c2a1d3e4f5a6b7c8d1" sample_world post_a
           (mkError "ServiceUnavailable" "Service Unavailable" None)).
  - vm_compute. reflexivity.
  - vm_compute. reflexivity.
Defined.

(** [post_a] is deleted; asking for it afterwards gives 404. *)
Lemma delete_then_detail_not_found_witness :
  ∃ w', delete_posts_postID sample_platform sample_env
          "64b7f0c2a1d3e4f5a6b7c8d1" sample_world
          = (w', Fulfilled (mkResponse 200 (SendText "Post and image deleted")))
        ∧ get_posts_postID sample_platform sample_env
            "64b7f0c2a1d3e4f5a6b7c8d1" w'
          = (w', Fulfilled (mkResponse 404 (SendText "Post not found"))).
Proof.
  apply (delete_then_detail_not_found sample_platform sample_env sample_env
           "64b7f0c2a1d3e4f5a6b7c8d1" "64b7f0c2a1d3e4f5a6b7c8d1" sample_world post_a).
  - apply (bool_decide_unpack _). vm_compute. exact I.
  - vm_compute. reflexivity.
  - vm_compute. reflexivity.
  - vm_compute. reflexivity.
  - vm_compute. reflexivity.
  - vm_compute. reflexivity.
Defined.

(** The presigner has no credentials: the detail route answers 500. *)
Lemma detail_signing_failure_fails_witness :
  ∃ w', get_posts_postID sample_platform env_signer_down
          "64b7f0c2a1d3e4f5a6b7c8d1" sample_world
          = (w', Fulfilled (mkResponse 500 (SendText "Error fetching post")))
        ∧ collection w' = collection sample_world.
Proof.
  apply (detail_signing_failure_fails sample_platform env_signer_down
           "64b7f0c2a1d3e4f5a6b7c8d1" sample_world post_a
           (mkError "CredentialsProviderError" "Could not load credentials" None)).
  - vm_compute. reflexivity.
  - vm_compute. reflexivity.
Defined.

(** ["not-an-id"] does not cast: both routes answer 500. *)
Lemma rejected_lookup_is_500_witness :
  ∃ w1 w2,
    get_posts_postID sample_platform sample_env "not-an-id" sample_world
      = (w1, Fulfilled (mkResponse 500 (SendText "Error fetching post")))
    ∧ delete_posts_postID sample_platform sample_env "not-an-id" sample_world
      = (w2, Fulfilled (mkResponse 500 (SendText "Error deleting post")))
    ∧ collection w1 = collection sample_world
    ∧ collection w2 = collection sample_world.
Proof.
  apply (rejected_lookup_is_500 sample_platform sample_env "not-an-id" sample_world
           (mkError "CastError" "Cast to ObjectId failed for value not-an-id" None)
           (mkError "CastError" "Cast to ObjectId failed for value not-an-id" None)).
  - vm_compute. reflexivity.
  - vm_compute. reflexivity.
Defined.

(** [post_b] has no key and cannot be signed; the callbacks complete in
    the order 2, 0, 1. *)
Lemma list_tolerates_one_signing_failure_witness :
  ∃ w' items,
    get_root sample_platform sample_env [2; 0; 1] sample_world
      = (w', Fulfilled (mkResponse 200 (SendJsonArray items)))
    ∧ length items = 3
    ∧ (∀ i o, items !! i = Some o → (o !! "imageUrl" = Some JNull ↔ i = 1)).
Proof.
  destruct (list_tolerates_one_signing_failure sample_platform sample_env
              [2; 0; 1] sample_world 1 post_b
              (mkError "Error" "No value provided for input HTTP label: Key." None))
    as (w' & items & Hrun & Hlen & Hnull & _).
  - vm_compute. reflexivity.
  - apply (bool_decide_unpack _). vm_compute. exact I.
  - vm_compute. reflexivity.
  - vm_compute. reflexivity.
  - intros [|[|[|i]]] post Hi Hne; try done.
    + injection Hi as <-. eexists. vm_compute. reflexivity.
    + injection Hi as <-. eexists. vm_compute. reflexivity.
  - exists w', items. split; [exact Hrun|]. split; [exact Hlen|exact Hnull].
Defined.

(** Every signing settles; the callbacks complete in the order 1, 2, 0. *)
Lemma list_keeps_repository_order_witness :
  ∃ w' items,
    get_root sample_platform sample_env [1; 2; 0] sample_world
      = (w', Fulfilled (mkResponse 200 (SendJsonArray items)))
    ∧ length items = 3
    ∧ ∀ i post, collection sample_world !! i = Some post →
        items !! i = Some (list_item sample_platform sample_env post)
        ∧ list_item sample_platform sample_env post !! "_id" = Some (JString (_id post)).
Proof.
  destruct (list_keeps_repository_order sample_platform sample_env [1; 2; 0] sample_world)
    as (w' & items & Hrun & Hlen & Hitems & _).
  - vm_compute. reflexivity.
  - apply (bool_decide_unpack _). vm_compute. exact I.
  - intros post Hin. apply list_elem_of_In in Hin.
    destruct Hin as [<-|[<-|[<-|[]]]]; vm_compute; discriminate.
  - exists w', items. split; [exact Hrun|]. split; [exact Hlen|exact Hitems].
Defined.

(** The requests of the list route and of the detail route for
    [post_c]. *)
Lemma signing_requests_of_list_and_detail_witness :
  s3_requests (get_root sample_platform sample_env [0; 1; 2] sample_world).1
    = [Presign (mkGetObject (Some "cclab-images") (Some "Images/file_1690000000000.png")
                  (Some "image/jpeg")) 3600;
       Presign (mkGetObject (Some "cclab-images") None (Some "image/jpeg")) 3600;
       Presign (mkGetObject (Some "cclab-images") (Some "Images/file_1690000000002.jpg")
                  (Some "image/jpeg")) 3600]
  ∧ s3_requests (get_posts_postID sample_platform sample_env
                   "64b7f0c2a1d3e4f5a6b7c8d3" sample_world).1
    = [Presign (mkGetObject (Some "cclab-images") (Some "Images/file_1690000000002.jpg")
                  None) 3600].
Proof.
  destruct (signing_requests_of_list_and_detail sample_platform sample_env
              [0; 1; 2] "64b7f0c2a1d3e4f5a6b7c8d3" sample_world post_c)
    as (Hlist & _ & Hdetail).
  - vm_compute. reflexivity.
  - vm_compute. reflexivity.
  - split; [exact Hlist|exact Hdetail].
Defined.

(** A compose request without a file part. *)
Lemma compose_without_file_is_500_witness :
  ∃ w', post_compose sample_platform sample_env compose_no_file sample_world
          = (w', Fulfilled (mkResponse 500 (SendText "Error saving post")))
        ∧ collection w' = collection sample_world.
Proof.
  apply (compose_without_file_is_500 sample_platform sample_env compose_no_file sample_world).
  vm_compute. reflexivity.
Defined.

(** C4, at [compose_no_file]: the answer to a request without a file part
    is not a client error (4xx). *)
Lemma compose_without_file_not_client_error :
  ¬ ∃ w' r, post_compose sample_platform sample_env compose_no_file sample_world
              = (w', Fulfilled r)
            ∧ 400 ≤ status r < 500.
Proof.
  intros (w' & r & Hrun & Hst). vm_compute in Hrun.
  injection Hrun as _ <-. simpl in Hst. lia.
Qed.

(** Composing ["holiday.photo.PNG"] at time 1700000000000. *)
Lemma composed_key_form_witness :
  ∃ saved,
    last (collection (post_compose sample_platform sample_env compose_hello sample_world).1)
      = Some saved
    ∧ imageKey saved = Some "Images/file_1700000000000.PNG".
Proof.
  edestruct (composed_key_form sample_platform sample_env compose_hello sample_world)
    as (file & saved & k & Hfile & Hcoll & _ & Hkey & Hk & _).
  - vm_compute. reflexivity.
  - vm_compute. reflexivity.
  - exists saved. split.
    + vm_compute in Hcoll. injection Hcoll as <-. vm_compute. reflexivity.
    + rewrite Hkey, Hk. injection Hfile as <-. vm_compute. reflexivity.
Defined.

(** C5, on the sample collection: the objects sent by the detail, the
    list and the compose routes all have an [imageKey] property. *)
Lemma responses_contain_imageKey :
  (∃ w' o, get_posts_postID sample_platform sample_env
             "64b7f0c2a1d3e4f5a6b7c8d1" sample_world
             = (w', Fulfilled (mkResponse 200 (SendJson o)))
           ∧ o !! "imageKey" = Some (JString "Images/file_1690000000000.png"))
  ∧ (∃ w' items o, get_root sample_platform sample_env [0; 1; 2] sample_world
             = (w', Fulfilled (mkResponse 200 (SendJsonArray items)))
           ∧ items !! 0 = Some o
           ∧ o !! "imageKey" = Some (JString "Images/file_1690000000000.png"))
  ∧ (∃ w' o, post_compose sample_platform sample_env compose_hello sample_world
             = (w', Fulfilled (mkResponse 201 (SendJson o)))
           ∧ o !! "imageKey" = Some (JString "Images/file_1700000000000.PNG")).
Proof.
  split; [|split].
  - eexists _, _. split; [vm_compute; reflexivity|]. vm_compute. reflexivity.
  - eexists _, _, _. split; [vm_compute; reflexivity|].
    split; [reflexivity|]. vm_compute. reflexivity.
  - eexists _, _. split; [vm_compute; reflexivity|]. vm_compute. reflexivity.
Qed.

(** The three routes on the sample collection: each object sent has the
    [imageKey] of its document. *)
Lemma responses_carry_imageKey_witness :
  (∃ w' r items,
     get_root sample_platform sample_env [0; 1; 2] sample_world = (w', Fulfilled r)
     ∧ body r = SendJsonArray items
     ∧ Forall2 (λ post (o : jsobj), o !! "imageKey" = JString <$> imageKey post)
         [post_a; post_b; post_c] items)
  ∧ (∃ w' r (o : jsobj) k,
       post_compose sample_platform sample_env compose_hello sample_world = (w', Fulfilled r)
       ∧ body r = SendJson o
       ∧ o !! "imageKey" = Some (JString k))
  ∧ (∃ w' r (o : jsobj),
       get_posts_postID sample_platform sample_env "64b7f0c2a1d3e4f5a6b7c8d3" sample_world
         = (w', Fulfilled r)
       ∧ body r = SendJson o
       ∧ o !! "imageKey" = Some (JString "Images/file_1690000000002.jpg")).
Proof.
  destruct (responses_carry_imageKey sample_platform sample_env) as (Hlist & Hcompose & Hdetail).
  split; [|split].
  - eexists _, _. edestruct (Hlist [0; 1; 2] sample_world) as (items & Hbody & Hitems).
    + vm_compute. reflexivity.
    + vm_compute. reflexivity.
    + exists items. split; [reflexivity|]. split; [exact Hbody|exact Hitems].
  - eexists _, _.
    edestruct (Hcompose compose_hello sample_world) as (o & saved & k & Hbody & _ & _ & Ho).
    + vm_compute. reflexivity.
    + vm_compute. reflexivity.
    + exists o, k. split; [reflexivity|]. split; [exact Hbody|exact Ho].
  - eexists _, _.
    edestruct (Hdetail "64b7f0c2a1d3e4f5a6b7c8d3" sample_world)
      as (o & post & Hbody & Hpost & Ho).
    + vm_compute. reflexivity.
    + vm_compute. reflexivity.
    + exists o. split; [reflexivity|]. split; [exact Hbody|].
      rewrite Ho. vm_compute in Hpost. injection Hpost as <-. reflexivity.
Defined.

(** * Further properties of the routes *)

(** ** The key callback *)

Lemma string_length_app (s1 s2 : string) :
  String.length (s1 +:+ s2) = (String.length s1 + String.length s2)%nat.
Proof.
  induction s1 as [|a s1 IH]; [done|].
  change (S (String.length (s1 +:+ s2)) = S (String.length s1 + String.length s2))%nat.
  by rewrite IH.
Qed.

Lemma string_app_inj_r (s1 s2 s : string) : s1 +:+ s = s2 +:+ s → s1 = s2.
Proof.
  revert s2. induction s1 as [|a s1 IH]; intros [|b s2] Heq; [done| | |].
  - apply (f_equal String.length) in Heq.
    rewrite !string_length_app in Heq. simpl in Heq. lia.
  - apply (f_equal String.length) in Heq.
    rewrite !string_length_app in Heq. simpl in Heq. lia.
  - change (String a (s1 +:+ s) = String b (s2 +:+ s)) in Heq.
    injection Heq as -> Heq. f_equal. by apply IH.
Qed.

(** X1. Two files with the same field name and the same extension get the
    same key exactly when [Date.now()] is the same for both: the stem of
    the original name plays no part, and distinct milliseconds give
    distinct keys. *)
Theorem upload_key_collides_iff_same_time pf env1 env2 f1 f2 :
  fieldname f1 = fieldname f2 →
  path_extname pf (originalname f1) = path_extname pf (originalname f2) →
  upload_key pf env1 f1 = upload_key pf env2 f2 ↔ Date_now env1 = Date_now env2.
Proof.
  intros Hfield Hext. unfold upload_key. rewrite Hfield, Hext. split.
  - intros Heq. do 3 apply (inj (String.append _)) in Heq.
    apply string_app_inj_r in Heq. by apply (inj pretty).
  - by intros ->.
Qed.

(** ** Not found *)

(** X2. When the lookup settles on no document, the detail route and the
    delete route answer 404 "Post not found" and leave the world exactly
    as it was: no request goes to S3, nothing is printed, no document is
    touched. *)
Theorem not_found_leaves_world pf env postID w :
  Post_findOne pf env postID w = (w, Fulfilled None) →
  get_posts_postID pf env postID w
    = (w, Fulfilled (mkResponse 404 (SendText "Post not found")))
  ∧ delete_posts_postID pf env postID w
    = (w, Fulfilled (mkResponse 404 (SendText "Post not found"))).
Proof.
  intros Hfind. rewrite Post_findOne_run in Hfind. injection Hfind as Hfind.
  unfold get_posts_postID, delete_posts_postID. async_unfold.
  by rewrite Post_findById_run, Post_findOne_run, Hfind.
Qed.

(** ** The detail route, when all goes well *)

(** X3. When the lookup finds the post and signing its key is fulfilled,
    the detail route answers 200 with an object whose [imageUrl] is the
    signed URL and whose every other property is the document's; one
    presign request is recorded, nothing is printed and the collection is
    as it was. *)
Theorem detail_success pf env postID w post url :
  Post_findOne pf env postID w = (w, Fulfilled (Some post)) →
  getSignedUrl env (detail_command pf post) 3600 = Fulfilled url →
  ∃ w' o,
    get_posts_postID pf env postID w = (w', Fulfilled (mkResponse 200 (SendJson o)))
    ∧ o !! "imageUrl" = Some (JString url)
    ∧ (∀ k, k ≠ "imageUrl" → o !! k = toObject post !! k)
    ∧ collection w' = collection w
    ∧ s3_requests w' = (s3_requests w ++ [Presign (detail_command pf post) 3600])%list
    ∧ stderr w' = stderr w.
Proof.
  intros Hfind Hsign. rewrite Post_findOne_run in Hfind. injection Hfind as Hfind.
  unfold get_posts_postID. async_unfold.
  rewrite Post_findOne_run, Hfind. simpl. rewrite Hsign. simpl.
  eexists _, _. split; [reflexivity|]. split; [by rewrite lookup_insert_eq|].
  split; [|done]. intros k Hk. by rewrite lookup_insert_ne.
Qed.

(** ** The delete route *)

Lemma filter_other_ids_id id (l : list Post) :
  id ∉ _id <$> l → filter (λ p, _id p ≠ id) l = l.
Proof.
  induction l as [|p l IH]; [done|]. rewrite fmap_cons, not_elem_of_cons.
  intros [Hp Hl]. rewrite filter_cons_True by done. by rewrite IH.
Qed.

(** With unique ids, [deleteOne] removes every document with the id. *)
Lemma remove_first_filter id (l : list Post) :
  NoDup (_id <$> l) → remove_first id l = filter (λ p, _id p ≠ id) l.
Proof.
  induction l as [|p l IH]; [done|]. rewrite fmap_cons, NoDup_cons.
  intros [Hp Hl]. simpl. case_decide as E.
  - rewrite filter_cons_False by naive_solver.
    rewrite filter_other_ids_id; [done|by rewrite <-E].
  - rewrite filter_cons_True by done. by rewrite IH.
Qed.

Lemma remove_first_length id (l : list Post) post :
  List.find (λ p, bool_decide (_id p = id)) l = Some post →
  length l = S (length (remove_first id l)).
Proof.
  induction l as [|p l IH]; [done|]. simpl. case_bool_decide as E.
  - by rewrite decide_True.
  - rewrite decide_False by done. intros Hfind. simpl. by rewrite <-IH.
Qed.

Lemma find_filter_other id id' (l : list Post) :
  id' ≠ id →
  List.find (λ p, bool_decide (_id p = id')) (filter (λ p, _id p ≠ id) l)
  = List.find (λ p, bool_decide (_id p = id')) l.
Proof.
  intros Hne. induction l as [|p l IH]; [done|].
  destruct (decide (_id p = id)) as [E|E].
  - rewrite filter_cons_False by naive_solver. simpl.
    rewrite bool_decide_eq_false_2 by congruence. done.
  - rewrite filter_cons_True by done. simpl. by rewrite IH.
Qed.

(** X4. With unique ids, a delete that goes through answers 200 and
    removes the documents with that id and no other: the collection loses
    exactly one document, keeps its order, every other id is looked up as
    before, exactly one S3 delete is recorded (bucket and key of the found
    post) and nothing is printed. *)
Theorem delete_removes_only_that_post pf env env' postID id w post :
  unique_ids w →
  castObjectId pf postID = Some id →
  Post_findById pf env postID w = (w, Fulfilled (Some post)) →
  s3Client_send env (delete_command pf post) = Fulfilled () →
  db_fault env (OpDeleteOne id) = None →
  ∃ w',
    delete_posts_postID pf env postID w
      = (w', Fulfilled (mkResponse 200 (SendText "Post and image deleted")))
    ∧ collection w' = filter (λ p, _id p ≠ id) (collection w)
    ∧ length (collection w) = S (length (collection w'))
    ∧ (∀ postID' id', castObjectId pf postID' = Some id' → id' ≠ id →
         (Post_findOne pf env' postID' w').2 = (Post_findOne pf env' postID' w).2)
    ∧ s3_requests w'
      = (s3_requests w
         ++ [SendDelete (mkDeleteObject (S3_BUCKET_NAME pf) (imageKey post))])%list
    ∧ stderr w' = stderr w.
Proof.
  intros Huniq Hcast Hfind Hs3 Hdel. rewrite Post_findById_run in Hfind.
  injection Hfind as Hfind.
  pose proof Hfind as Hfound. unfold findOne_outcome in Hfound.
  rewrite Hcast in Hfound. destruct (db_fault env (OpFindOne id)); [done|].
  injection Hfound as Hfound.
  unfold delete_posts_postID. async_unfold.
  rewrite Post_findById_run, Hfind. simpl. rewrite Hs3. simpl.
  unfold Post_deleteOne. async_unfold. rewrite Hcast. simpl. rewrite Hdel. simpl.
  eexists. split; [reflexivity|]. simpl.
  split; [by apply remove_first_filter|].
  split; [by eapply remove_first_length|].
  split; [|done].
  intros postID' id' Hcast' Hne. rewrite !Post_findOne_run. simpl.
  unfold findOne_outcome. rewrite Hcast'.
  destruct (db_fault env' (OpFindOne id')); [done|].
  rewrite remove_first_filter by done. by rewrite find_filter_other.
Qed.

(** X5. When the S3 delete is fulfilled and the database then refuses the
    [deleteOne], the delete route answers 500 "Error deleting post": the
    S3 delete has been sent, the document is still in the collection, and
    one line is printed with the id and the database's error. *)
Theorem delete_record_failure_keeps_record pf env postID id w post err :
  castObjectId pf postID = Some id →
  Post_findById pf env postID w = (w, Fulfilled (Some post)) →
  s3Client_send env (delete_command pf post) = Fulfilled () →
  db_fault env (OpDeleteOne id) = Some err →
  ∃ w',
    delete_posts_postID pf env postID w
      = (w', Fulfilled (mkResponse 500 (SendText "Error deleting post")))
    ∧ collection w' = collection w
    ∧ s3_requests w'
      = (s3_requests w
         ++ [SendDelete (mkDeleteObject (S3_BUCKET_NAME pf) (imageKey post))])%list
    ∧ stderr w' = (stderr w ++ [("Error deleting post with ID " +:+ postID, err)])%list.
Proof.
  intros Hcast Hfind Hs3 Hdel. rewrite Post_findById_run in Hfind.
  injection Hfind as Hfind.
  unfold delete_posts_postID. async_unfold.
  rewrite Post_findById_run, Hfind. simpl. rewrite Hs3. simpl.
  unfold Post_deleteOne. async_unfold. rewrite Hcast. simpl. rewrite Hdel. simpl.
  by eexists.
Qed.

(** ** The list route *)

Section ListMore.
Context (pf : Platform) (env : Env).
Local Open Scope nat_scope.

Lemma list_item_resume_stderr post w :
  stderr (list_item_resume pf env post w).1 = (stderr w ++ list_item_log pf env post)%list.
Proof.
  unfold list_item_resume, list_item_log. async_unfold.
  destruct (getSignedUrl env _ _); simpl; by rewrite ?app_nil_r.
Qed.

(** The lines printed while the callbacks complete follow the schedule. *)
Lemma settle_list_stderr posts schedule :
  ∀ st w,
    stderr (settle (list_item_resume pf env <$> posts) schedule st w).1
    = (stderr w
       ++ (schedule ≫= λ i, from_option (list_item_log pf env) [] (posts !! i)))%list.
Proof.
  induction schedule as [|i rest IH]; intros st w; simpl.
  { by rewrite app_nil_r. }
  rewrite list_lookup_fmap. destruct (posts !! i) as [post|]; simpl; [|apply IH].
  pose proof (list_item_resume_stderr post w) as Hlog.
  destruct (list_item_resume pf env post w) as [w1 [|x|e]]; simpl in *;
    rewrite IH, Hlog; by rewrite <-app_assoc.
Qed.

(** With nothing to wait for, the schedule does nothing. *)
Lemma settle_nil {A} schedule (st : AllState A) w :
  settle [] schedule st w = (w, st).
Proof. induction schedule as [|i rest IH]; simpl; [done|apply IH]. Qed.

(** The callbacks never reject, so [Promise.all] never does. *)
Lemma list_all_not_rejected posts schedule w e :
  (Promise_all (list_item_resume pf env <$> posts) schedule w).2 ≠ Rejected e.
Proof.
  unfold Promise_all.
  destruct (settle_inv _ _ schedule (list_tasks_settle pf env posts)
              (all_init (length (list_item_resume pf env <$> posts))) w ∅)
    as (D & _ & _ & Hinv).
  { rewrite (Forall2_length _ _ _ (list_tasks_settle pf env posts)). apply all_inv_init. }
  destruct (settle _ _ _ _) as [w1 st]. simpl in *.
  destruct Hinv as (_ & _ & _ & _ & [(e' & _ & Hin)|Hout]).
  - apply list_elem_of_fmap in Hin as (post & Hpost & _).
    unfold list_item_outcome in Hpost. by destruct (getSignedUrl env _ _).
  - rewrite Hout. by case_decide.
Qed.

(** The world after the list route, once [find] has answered. *)
Lemma get_root_world schedule w :
  db_fault env OpFind = None →
  (get_root pf env schedule w).1
  = mkWorld (collection w)
      (s3_requests w ++ (list_presign pf <$> collection w))
      (stderr w
       ++ (schedule ≫= λ i, from_option (list_item_log pf env) [] (collection w !! i))).
Proof.
  intros Hdb. unfold get_root. async_unfold.
  rewrite Post_find_run, Hdb. simpl. rewrite start_all_run. simpl.
  pose proof (list_all_not_rejected (collection w) schedule
                (mkWorld (collection w)
                   (s3_requests w ++ (list_presign pf <$> collection w)) (stderr w)))
    as Hnot.
  unfold Promise_all in *.
  pose proof (settle_list_world pf env (collection w) schedule
                (all_init (length (list_item_resume pf env <$> collection w)))
                (mkWorld (collection w)
                   (s3_requests w ++ (list_presign pf <$> collection w)) (stderr w)))
    as [Hc Hs].
  pose proof (settle_list_stderr (collection w) schedule
                (all_init (length (list_item_resume pf env <$> collection w)))
                (mkWorld (collection w)
                   (s3_requests w ++ (list_presign pf <$> collection w)) (stderr w)))
    as He.
  destruct (settle _ _ _ _) as [w1 st]. simpl in *.
  destruct (outcome st) as [|items|e]; simpl; [| |by destruct (Hnot e)];
    destruct w1; simpl in *; by subst.
Qed.
End ListMore.

(** X6. When [find] is rejected, the list route answers 500 "Error
    fetching posts" whatever the schedule: no presign request is made, the
    collection is untouched and one line is printed with the error. *)
Theorem list_repository_failure pf env schedule w err :
  db_fault env OpFind = Some err →
  get_root pf env schedule w
  = (mkWorld (collection w) (s3_requests w) (stderr w ++ [("Error fetching posts", err)]),
     Fulfilled (mkResponse 500 (SendText "Error fetching posts"))).
Proof.
  intros Hdb. unfold get_root. async_unfold. by rewrite Post_find_run, Hdb.
Qed.

(** X7. On an empty collection the list route answers 200 with the empty
    array at once, whatever the schedule, and leaves the world as it
    was. *)
Theorem list_empty_collection pf env schedule w :
  db_fault env OpFind = None →
  collection w = [] →
  get_root pf env schedule w = (w, Fulfilled (mkResponse 200 (SendJsonArray []))).
Proof.
  intros Hdb Hempty. unfold get_root. async_unfold.
  rewrite Post_find_run, Hdb. simpl. rewrite start_all_run, Hempty. simpl.
  unfold Promise_all. simpl. rewrite settle_nil. simpl.
  destruct w as [c s e]. simpl in *. subst c. by rewrite app_nil_r.
Qed.

(** X8. Once [find] has answered, what the list route prints is one line
    per completed callback whose signing was rejected, in the order the
    callbacks complete: the log follows the schedule, not the
    collection. *)
Theorem list_log_follows_completion pf env schedule w :
  db_fault env OpFind = None →
  stderr (get_root pf env schedule w).1
  = (stderr w
     ++ (schedule ≫= λ i, from_option (list_item_log pf env) [] (collection w !! i)))%list.
Proof. intros Hdb. by rewrite get_root_world. Qed.

(** X9. The list route and the detail route only read: whatever the
    collaborators answer, the collection is what it was, and every request
    they add for S3 is a presign with [expiresIn: 3600], never a delete or
    an upload. *)
Theorem read_routes_only_read pf env schedule postID w :
  collection (get_root pf env schedule w).1 = collection w
  ∧ collection (get_posts_postID pf env postID w).1 = collection w
  ∧ (∀ q, q ∈ s3_requests (get_root pf env schedule w).1 →
       q ∈ s3_requests w ∨ ∃ c, q = Presign c 3600)
  ∧ (∀ q, q ∈ s3_requests (get_posts_postID pf env postID w).1 →
       q ∈ s3_requests w ∨ ∃ c, q = Presign c 3600).
Proof.
  split; [apply get_root_collection|]. split; [apply get_posts_postID_collection|].
  split.
  - destruct (db_fault env OpFind) as [e|] eqn:Hdb.
    + rewrite (list_repository_failure _ _ _ _ _ Hdb). simpl. by left.
    + rewrite get_root_world by done. simpl.
      intros q [Hq|Hq]%elem_of_app; [by left|right].
      apply list_elem_of_fmap in Hq as (post & -> & _). by eexists.
  - unfold get_posts_postID. async_unfold. rewrite Post_findOne_run.
    destruct (findOne_outcome _ _ _ _) as [|[post|]|e]; simpl; try by left.
    destruct (getSignedUrl env _ _); simpl;
      (intros q [Hq|Hq%list_elem_of_singleton]%elem_of_app; [by left|right; by eexists]).
Qed.

(** ** The compose route *)

Lemma toObject_title post : toObject post !! "title" = JString <$> title post.
Proof.
  unfold toObject. rewrite !lookup_set_defined_ne by done.
  apply lookup_set_defined_eq. by rewrite lookup_singleton_ne.
Qed.

Lemma toObject_content post : toObject post !! "content" = JString <$> content post.
Proof.
  unfold toObject. rewrite !lookup_set_defined_ne by done.
  apply lookup_set_defined_eq. rewrite lookup_set_defined_ne by done.
  by rewrite lookup_singleton_ne.
Qed.

(** A 201 of the compose route, read backwards: the upload was fulfilled,
    the id was free, and the world gained one document and one upload. *)
Lemma post_compose_201_world pf env req w w' r :
  post_compose pf env req w = (w', Fulfilled r) →
  status r = 201 →
  ∃ file,
    file_part req = Some file
    ∧ (new_ObjectId env ∉ _id <$> collection w)
    ∧ let saved := mkPost (new_ObjectId env) (postTitle req) (postContent req)
                     (Some (upload_key pf env file)) (Some 0%Z) in
      w' = mkWorld (collection w ++ [saved])
             (s3_requests w ++ [Upload (S3_BUCKET_NAME pf) (upload_key pf env file)])
             (stderr w)
      ∧ r = mkResponse 201 (SendJson (toObject saved)).
Proof.
  unfold post_compose, upload_single, compose_handler, Post_save, new_Post.
  intros Hrun Hst. async_unfold.
  destruct (file_part req) as [file|]; simpl in Hrun; [|by async_run].
  exists file. split; [done|].
  case_bool_decide as Hname; simpl in Hrun.
  2:{ injection Hrun as _ <-. pose proof (express_error_status
        (mkError "MulterError" "Unexpected field" None)). lia. }
  destruct (s3_upload env _) as [| |e]; simpl in Hrun; [done| |].
  2:{ injection Hrun as _ <-. pose proof (express_error_status e). lia. }
  destruct (db_fault env _); simpl in Hrun; [by async_run|].
  case_bool_decide as Hfresh; simpl in Hrun; [by async_run|].
  split; [done|]. by injection Hrun as <- <-.
Qed.


(** X11. The compose route creates a document only with a 201: whenever
    it answers anything else, or does not answer, the collection is what
    it was. *)
Theorem compose_failure_creates_nothing pf env req w w' p :
  post_compose pf env req w = (w', p) →
  (∀ r, p = Fulfilled r → status r ≠ 201) →
  collection w' = collection w.
Proof.
  unfold post_compose, upload_single, compose_handler, Post_save, new_Post.
  intros Hrun Hnot. async_unfold.
  destruct (file_part req) as [file|]; simpl in Hrun; [|by async_run].
  case_bool_decide as Hname; simpl in Hrun; [|by async_run].
  destruct (s3_upload env _) as [| |e]; simpl in Hrun; [by async_run| |by async_run].
  destruct (db_fault env _); simpl in Hrun; [by async_run|].
  case_bool_decide as Hfresh; simpl in Hrun; [by async_run|].
  injection Hrun as <- <-. by destruct (Hnot _ eq_refl).
Qed.


(** ** Composing, then reading and deleting *)

Lemma find_snoc_fresh id (l : list Post) saved :
  id ∉ _id <$> l → _id saved = id →
  List.find (λ p, bool_decide (_id p = id)) (l ++ [saved]) = Some saved.
Proof.
  intros Hfresh Hid. induction l as [|p l IH]; simpl.
  - by rewrite bool_decide_eq_true_2.
  - rewrite fmap_cons, not_elem_of_cons in Hfresh. destruct Hfresh as [Hp Hl].
    rewrite bool_decide_eq_false_2 by done. by apply IH.
Qed.

Lemma remove_first_snoc_fresh id (l : list Post) saved :
  id ∉ _id <$> l → _id saved = id → remove_first id (l ++ [saved]) = l.
Proof.
  intros Hfresh Hid. induction l as [|p l IH]; simpl.
  - by rewrite decide_True.
  - rewrite fmap_cons, not_elem_of_cons in Hfresh. destruct Hfresh as [Hp Hl].
    rewrite decide_False by done. by rewrite IH.
Qed.

(** X13. After a 201 of the compose route, a detail request for the new
    id (an id that casts to itself), with the database reachable and the
    signing of the new key fulfilled, answers 200 with the title and the
    content of the form, the key generated at upload and the signed
    URL. *)
Theorem compose_then_detail pf env env' req file w w' r url :
  post_compose pf env req w = (w', Fulfilled r) →
  status r = 201 →
  file_part req = Some file →
  castObjectId pf (new_ObjectId env) = Some (new_ObjectId env) →
  db_fault env' (OpFindOne (new_ObjectId env)) = None →
  getSignedUrl env' (mkGetObject (S3_BUCKET_NAME pf) (Some (upload_key pf env file)) None) 3600
    = Fulfilled url →
  ∃ w'' o,
    get_posts_postID pf env' (new_ObjectId env) w'
      = (w'', Fulfilled (mkResponse 200 (SendJson o)))
    ∧ o !! "_id" = Some (JString (new_ObjectId env))
    ∧ o !! "title" = JString <$> postTitle req
    ∧ o !! "content" = JString <$> postContent req
    ∧ o !! "imageKey" = Some (JString (upload_key pf env file))
    ∧ o !! "imageUrl" = Some (JString url).
Proof.
  intros Hrun Hst Hfile Hcast Hdb Hsign.
  destruct (post_compose_201_world _ _ _ _ _ _ Hrun Hst)
    as (file' & Hfile' & Hfresh & Hw' & _).
  rewrite Hfile in Hfile'. injection Hfile' as <-.
  assert (Post_findOne pf env' (new_ObjectId env) w'
          = (w', Fulfilled (Some (mkPost (new_ObjectId env) (postTitle req)
                                    (postContent req) (Some (upload_key pf env file))
                                    (Some 0%Z))))) as Hlook.
  { rewrite Post_findOne_run. unfold findOne_outcome. rewrite Hcast, Hdb, Hw'. simpl.
    by rewrite find_snoc_fresh. }
  destruct (detail_success _ _ _ _ _ _ Hlook Hsign)
    as (w'' & o & Hdetail & Hurl & Hrest & _).
  exists w'', o. split; [exact Hdetail|].
  rewrite !Hrest by done.
  by rewrite toObject_id, toObject_title, toObject_content, toObject_imageKey.
Qed.

(** X14. After a 201 of the compose route, a list request (database
    reachable, every signing settled, any completion order) answers 200
    with the items of the earlier documents in their order followed by the
    item of the new document, which carries the title and the content of
    the form. *)
Theorem compose_then_list pf env env' req w w' r schedule :
  post_compose pf env req w = (w', Fulfilled r) →
  status r = 201 →
  db_fault env' OpFind = None →
  schedule ≡ₚ seq 0 (S (length (collection w))) →
  (∀ post, post ∈ collection w' → getSignedUrl env' (list_command pf post) 3600 ≠ Pending) →
  ∃ w'' saved,
    get_root pf env' schedule w'
      = (w'', Fulfilled (mkResponse 200 (SendJsonArray
           ((list_item pf env' <$> collection w) ++ [list_item pf env' saved]))))
    ∧ last (collection w') = Some saved
    ∧ list_item pf env' saved !! "_id" = Some (JString (new_ObjectId env))
    ∧ list_item pf env' saved !! "title" = JString <$> postTitle req
    ∧ list_item pf env' saved !! "content" = JString <$> postContent req.
Proof.
  intros Hrun Hst Hdb Hperm Hsettle.
  destruct (post_compose_201_world _ _ _ _ _ _ Hrun Hst) as (file & _ & _ & Hw' & _).
  destruct (get_root_complete pf env' schedule w' Hdb Hsettle) as (w'' & Hlist & _).
  { apply schedule_covers. rewrite Hw'. simpl. by rewrite length_app, Nat.add_1_r. }
  rewrite Hw' in Hlist at 2. simpl in Hlist. rewrite fmap_app in Hlist.
  eexists w'', _. split; [exact Hlist|]. rewrite Hw'. simpl.
  split; [apply last_snoc|].
  unfold list_item. rewrite !lookup_insert_ne by done.
  by rewrite toObject_id, toObject_title, toObject_content.
Qed.

(** X15. Composing and then deleting the new post gives back the
    collection: after a 201 of the compose route, a delete request for the
    new id (database reachable, S3 delete of the new key fulfilled)
    answers 200, the collection is the one before the compose, and the key
    deleted from S3 is the key uploaded. *)
Theorem compose_then_delete_restores pf env env' req file w w' r :
  post_compose pf env req w = (w', Fulfilled r) →
  status r = 201 →
  file_part req = Some file →
  castObjectId pf (new_ObjectId env) = Some (new_ObjectId env) →
  db_fault env' (OpFindOne (new_ObjectId env)) = None →
  s3Client_send env' (mkDeleteObject (S3_BUCKET_NAME pf) (Some (upload_key pf env file)))
    = Fulfilled () →
  db_fault env' (OpDeleteOne (new_ObjectId env)) = None →
  ∃ w'',
    delete_posts_postID pf env' (new_ObjectId env) w'
      = (w'', Fulfilled (mkResponse 200 (SendText "Post and image deleted")))
    ∧ collection w'' = collection w
    ∧ s3_requests w''
      = (s3_requests w
         ++ [Upload (S3_BUCKET_NAME pf) (upload_key pf env file);
             SendDelete (mkDeleteObject (S3_BUCKET_NAME pf)
                           (Some (upload_key pf env file)))])%list.
Proof.
  intros Hrun Hst Hfile Hcast Hfind Hs3 Hdel.
  destruct (post_compose_201_world _ _ _ _ _ _ Hrun Hst) as (file' & Hfile' & Hfresh & -> & _).
  rewrite Hfile in Hfile'. injection Hfile' as <-.
  unfold delete_posts_postID, Post_deleteOne. async_unfold.
  rewrite Post_findById_run. unfold findOne_outcome. rewrite Hcast, Hfind. simpl.
  rewrite find_snoc_fresh by done. simpl.
  unfold delete_command. simpl. rewrite Hs3. simpl. rewrite Hdel. simpl.
  eexists. split; [reflexivity|]. simpl.
  split; [by apply remove_first_snoc_fresh|]. by rewrite <-app_assoc.
Qed.

(** ** The statuses the routes answer with *)

(** X16. Whenever they answer, the list route answers 200 or 500, the
    detail and the delete routes answer 200, 404 or 500, and the compose
    route answers 201, 500 or the status Express gives an error of the
    upload (a 4xx or a 5xx). *)
Theorem route_statuses pf env w w' r :
  (∀ schedule, get_root pf env schedule w = (w', Fulfilled r) →
     status r = 200 ∨ status r = 500)
  ∧ (∀ postID, get_posts_postID pf env postID w = (w', Fulfilled r) →
       status r = 200 ∨ status r = 404 ∨ status r = 500)
  ∧ (∀ postID, delete_posts_postID pf env postID w = (w', Fulfilled r) →
       status r = 200 ∨ status r = 404 ∨ status r = 500)
  ∧ (∀ req, post_compose pf env req w = (w', Fulfilled r) →
       status r = 201 ∨ (400 ≤ status r < 600)%nat).
Proof.
  split; [|split; [|split]].
  - intros schedule Hrun. destruct (db_fault env OpFind) as [e|] eqn:Hdb.
    + rewrite (list_repository_failure _ _ _ _ _ Hdb) in Hrun.
      injection Hrun as _ <-. by right.
    + destruct (get_root_run pf env schedule w Hdb) as (w1 & _ & _ & Heq).
      rewrite Heq in Hrun.
      destruct (Promise_all _ _ _) as [w2 [|items|e]]; simplify_eq/=; auto.
  - intros postID Hrun. unfold get_posts_postID in Hrun. async_unfold.
    rewrite Post_findOne_run in Hrun.
    destruct (findOne_outcome _ _ _ _) as [|[post|]|e]; async_run; auto.
    destruct (getSignedUrl env _ _); async_run; auto.
  - intros postID Hrun. unfold delete_posts_postID, Post_deleteOne in Hrun. async_unfold.
    rewrite Post_findById_run in Hrun.
    destruct (findOne_outcome _ _ _ _) as [|[post|]|e]; async_run; auto.
    destruct (s3Client_send env _); async_run; auto.
    destruct (castObjectId pf postID) as [id|]; async_run; auto.
    destruct (db_fault env (OpDeleteOne id)); async_run; auto.
  - intros req Hrun.
    unfold post_compose, upload_single, compose_handler, Post_save, new_Post in Hrun.
    async_unfold.
    destruct (file_part req) as [file|]; simpl in Hrun; [|async_run; right; simpl; lia].
    case_bool_decide as Hname; simpl in Hrun.
    2:{ injection Hrun as _ <-. right. apply express_error_status. }
    destruct (s3_upload env _) as [| |e]; simpl in Hrun; [done| |].
    2:{ injection Hrun as _ <-. right. apply express_error_status. }
    destruct (db_fault env _); simpl in Hrun; [async_run; right; simpl; lia|].
    case_bool_decide; simpl in Hrun; async_run; [right; simpl; lia|by left].
Qed.

(** ** What is printed *)

(** X17. The detail and the delete routes print exactly when they answer
    500, and then one line that ends with the requested id; a 200 or a 404
    prints nothing. *)
Theorem detail_delete_print_only_on_500 pf env postID w w' r :
  get_posts_postID pf env postID w = (w', Fulfilled r)
  ∨ delete_posts_postID pf env postID w = (w', Fulfilled r) →
  (status r = 500
   ∧ ∃ msg e, stderr w' = (stderr w ++ [(msg +:+ postID, e)])%list
              ∧ (msg = "Error fetching post with ID "
                 ∨ msg = "Error deleting post with ID "))
  ∨ (status r ≠ 500 ∧ stderr w' = stderr w).
Proof.
  unfold get_posts_postID, delete_posts_postID, Post_deleteOne. async_unfold.
  rewrite Post_findById_run, Post_findOne_run.
  intros [Hrun|Hrun];
    destruct (findOne_outcome pf env postID (collection w)) as [|[post|]|e];
    async_run; try (right; split; [simpl; lia|done]);
    try (left; split; [done|]; eexists _, _; split; [reflexivity|]; auto).
  - destruct (getSignedUrl env _ _); async_run.
    + right. split; [simpl; lia|done].
    + left. split; [done|]. eexists _, _. split; [reflexivity|]. auto.
  - destruct (s3Client_send env _); async_run.
    + destruct (castObjectId pf postID) as [id|]; async_run.
      * destruct (db_fault env (OpDeleteOne id)); async_run.
        -- left. split; [done|]. eexists _, _. split; [reflexivity|]. auto.
        -- right. split; [simpl; lia|done].
      * left. split; [done|]. eexists _, _. split; [reflexivity|]. auto.
    + left. split; [done|]. eexists _, _. split; [reflexivity|]. auto.
Qed.

(** * The further properties on the sample collection *)

(** ["cat.png"] and ["dog.png"] uploaded in the same millisecond get the
    same key. *)
Lemma upload_key_collides_iff_same_time_witness :
  upload_key sample_platform sample_env (mkFilePart "file" "cat.png")
  = upload_key sample_platform sample_env (mkFilePart "file" "dog.png").
Proof.
  apply (upload_key_collides_iff_same_time sample_platform sample_env sample_env
           (mkFilePart "file" "cat.png") (mkFilePart "file" "dog.png")).
  - reflexivity.
  - vm_compute. reflexivity.
  - reflexivity.
Defined.

(** No document has the id [...d9]. *)
Lemma not_found_leaves_world_witness :
  get_posts_postID sample_platform sample_env "64b7f0c2a1d3e4f5a6b7c8d9" sample_world
    = (sample_world, Fulfilled (mkResponse 404 (SendText "Post not found")))
  ∧ delete_posts_postID sample_platform sample_env "64b7f0c2a1d3e4f5a6b7c8d9" sample_world
    = (sample_world, Fulfilled (mkResponse 404 (SendText "Post not found"))).
Proof.
  apply (not_found_leaves_world sample_platform sample_env
           "64b7f0c2a1d3e4f5a6b7c8d9" sample_world).
  vm_compute. reflexivity.
Defined.

(** The detail of [post_c]. *)
Lemma detail_success_witness :
  ∃ w' (o : jsobj),
    get_posts_postID sample_platform sample_env "64b7f0c2a1d3e4f5a6b7c8d3" sample_world
      = (w', Fulfilled (mkResponse 200 (SendJson o)))
    ∧ o !! "imageUrl"
      = Some (JString ("https://cclab-images.s3.amazonaws.com/"
                         +:+ "Images/file_1690000000002.jpg?X-Amz-Expires=3600"))
    ∧ o !! "title" = Some (JString "Third").
Proof.
  destruct (detail_success sample_platform sample_env "64b7f0c2a1d3e4f5a6b7c8d3"
              sample_world post_c
              ("https://cclab-images.s3.amazonaws.com/"
                 +:+ "Images/file_1690000000002.jpg?X-Amz-Expires=3600"))
    as (w' & o & Hrun & Hurl & Hrest & _).
  - vm_compute. reflexivity.
  - vm_compute. reflexivity.
  - exists w', o. split; [exact Hrun|]. split; [exact Hurl|].
    rewrite Hrest by discriminate. vm_compute. reflexivity.
Defined.

(** Deleting [post_b] leaves [post_a] and [post_c], in that order. *)
Lemma delete_removes_only_that_post_witness :
  ∃ w',
    delete_posts_postID sample_platform sample_env "64b7f0c2a1d3e4f5a6b7c8d2" sample_world
      = (w', Fulfilled (mkResponse 200 (SendText "Post and image deleted")))
    ∧ collection w' = [post_a; post_c].
Proof.
  destruct (delete_removes_only_that_post sample_platform sample_env sample_env
              "64b7f0c2a1d3e4f5a6b7c8d2" "64b7f0c2a1d3e4f5a6b7c8d2" sample_world post_b)
    as (w' & Hrun & Hcoll & _).
  - apply (bool_decide_unpack _). vm_compute. exact I.
  - vm_compute. reflexivity.
  - vm_compute. reflexivity.
  - vm_compute. reflexivity.
  - vm_compute. reflexivity.
  - exists w'. split; [exact Hrun|]. rewrite Hcoll. vm_compute. reflexivity.
Defined.

(** The database refuses the [deleteOne] of [post_a]. *)
Lemma delete_record_failure_keeps_record_witness :
  ∃ w',
    delete_posts_postID sample_platform env_db_read_only
        "64b7f0c2a1d3e4f5a6b7c8d1" sample_world
      = (w', Fulfilled (mkResponse 500 (SendText "Error deleting post")))
    ∧ collection w' = [post_a; post_b; post_c]
    ∧ s3_requests w'
      = [SendDelete (mkDeleteObject (Some "cclab-images")
                       (Some "Images/file_1690000000000.png"))].
Proof.
  destruct (delete_record_failure_keeps_record sample_platform env_db_read_only
              "64b7f0c2a1d3e4f5a6b7c8d1" "64b7f0c2a1d3e4f5a6b7c8d1" sample_world post_a
              (mkError "MongoServerError" "not primary" None))
    as (w' & Hrun & Hcoll & Hs3 & _).
  - vm_compute. reflexivity.
  - vm_compute. reflexivity.
  - vm_compute. reflexivity.
  - vm_compute. reflexivity.
  - exists w'. split; [exact Hrun|]. split; [exact Hcoll|exact Hs3].
Defined.

(** The list route with the database down. *)
Lemma list_repository_failure_witness :
  get_root sample_platform env_db_down [0; 1; 2] sample_world
  = (mkWorld [post_a; post_b; post_c] []
       [("Error fetching posts", mkError "MongoNetworkError" "connection closed" None)],
     Fulfilled (mkResponse 500 (SendText "Error fetching posts"))).
Proof.
  apply (list_repository_failure sample_platform env_db_down [0; 1; 2] sample_world
           (mkError "MongoNetworkError" "connection closed" None)).
  vm_compute. reflexivity.
Defined.

(** The list route on the empty collection, with a schedule that names
    callbacks that do not exist. *)
Lemma list_empty_collection_witness :
  get_root sample_platform sample_env [1; 0] empty_world
  = (empty_world, Fulfilled (mkResponse 200 (SendJsonArray []))).
Proof.
  apply (list_empty_collection sample_platform sample_env [1; 0] empty_world).
  - vm_compute. reflexivity.
  - reflexivity.
Defined.

(** With the presigner down and the callbacks completing in the order
    2, 0, 1, the lines are those of [post_c], [post_a], [post_b]. *)
Lemma list_log_follows_completion_witness :
  fst <$> stderr (get_root sample_platform env_signer_down [2; 0; 1] sample_world).1
  = ["Error generating signed URL for Images/file_1690000000002.jpg";
     "Error generating signed URL for Images/file_1690000000000.png";
     "Error generating signed URL for undefined"].
Proof.
  rewrite (list_log_follows_completion sample_platform env_signer_down [2; 0; 1] sample_world).
  - vm_compute. reflexivity.
  - vm_compute. reflexivity.
Defined.


(** A request without a file part creates nothing. *)
Lemma compose_failure_creates_nothing_witness :
  collection (post_compose sample_platform sample_env compose_no_file sample_world).1
  = collection sample_world.
Proof.
  eapply (compose_failure_creates_nothing sample_platform sample_env compose_no_file
            sample_world).
  - apply surjective_pairing.
  - vm_compute. intros r [= <-]. simpl. lia.
Defined.


(** Composing [compose_hello], then asking for the new id. *)
Lemma compose_then_detail_witness :
  ∃ w'' (o : jsobj),
    get_posts_postID sample_platform env_later "64b7f0c2a1d3e4f5a6b7c8d4"
        (post_compose sample_platform sample_env compose_hello sample_world).1
      = (w'', Fulfilled (mkResponse 200 (SendJson o)))
    ∧ o !! "title" = Some (JString "Hello")
    ∧ o !! "content" = Some (JString "World")
    ∧ o !! "imageKey" = Some (JString "Images/file_1700000000000.PNG").
Proof.
  edestruct (compose_then_detail sample_platform sample_env env_later compose_hello
               (mkFilePart "file" "holiday.photo.PNG") sample_world)
    as (w'' & o & Hrun & _ & Htitle & Hcontent & Hkey & _).
  - vm_compute. reflexivity.
  - reflexivity.
  - reflexivity.
  - vm_compute. reflexivity.
  - vm_compute. reflexivity.
  - vm_compute. reflexivity.
  - exists w'', o. split; [exact Hrun|]. split; [exact Htitle|].
    split; [exact Hcontent|]. rewrite Hkey. vm_compute. reflexivity.
Defined.

(** Composing [compose_hello], then listing with the callbacks completing
    in the order 3, 1, 0, 2: the new post is the fourth item. *)
Lemma compose_then_list_witness :
  ∃ w'' (items : list jsobj) (o : jsobj),
    get_root sample_platform env_later [3; 1; 0; 2]
        (post_compose sample_platform sample_env compose_hello sample_world).1
      = (w'', Fulfilled (mkResponse 200 (SendJsonArray items)))
    ∧ length items = 4
    ∧ items !! 3 = Some o
    ∧ o !! "title" = Some (JString "Hello")
    ∧ o !! "content" = Some (JString "World").
Proof.
  edestruct (compose_then_list sample_platform sample_env env_later compose_hello
               sample_world) with (schedule := [3; 1; 0; 2])
    as (w'' & saved & Hrun & _ & _ & Htitle & Hcontent).
  - vm_compute. reflexivity.
  - reflexivity.
  - vm_compute. reflexivity.
  - apply (bool_decide_unpack _). vm_compute. exact I.
  - intros post Hin. apply list_elem_of_In in Hin.
    destruct Hin as [<-|[<-|[<-|[<-|[]]]]]; vm_compute; discriminate.
  - eexists w'', _, _. split; [exact Hrun|].
    split; [reflexivity|]. split; [reflexivity|]. split; [exact Htitle|exact Hcontent].
Defined.

(** Composing [compose_hello], then deleting the new id: the sample
    collection is back, and the key deleted is the key uploaded. *)
Lemma compose_then_delete_restores_witness :
  ∃ w'',
    delete_posts_postID sample_platform env_later "64b7f0c2a1d3e4f5a6b7c8d4"
        (post_compose sample_platform sample_env compose_hello sample_world).1
      = (w'', Fulfilled (mkResponse 200 (SendText "Post and image deleted")))
    ∧ collection w'' = [post_a; post_b; post_c]
    ∧ s3_requests w''
      = [Upload (Some "cclab-images") "Images/file_1700000000000.PNG";
         SendDelete (mkDeleteObject (Some "cclab-images")
                       (Some "Images/file_1700000000000.PNG"))].
Proof.
  edestruct (compose_then_delete_restores sample_platform sample_env env_later
               compose_hello (mkFilePart "file" "holiday.photo.PNG") sample_world)
    as (w'' & Hrun & Hcoll & Hs3).
  - vm_compute. reflexivity.
  - reflexivity.
  - reflexivity.
  - vm_compute. reflexivity.
  - vm_compute. reflexivity.
  - vm_compute. reflexivity.
  - vm_compute. reflexivity.
  - exists w''. split; [exact Hrun|]. split; [exact Hcoll|].
    rewrite Hs3. vm_compute. reflexivity.
Defined.

(** The statuses of the four routes on the sample collection. *)
Lemma route_statuses_witness :
  (∃ w' r, get_root sample_platform sample_env [0; 1; 2] sample_world = (w', Fulfilled r)
           ∧ (status r = 200 ∨ status r = 500))
  ∧ (∃ w' r, get_posts_postID sample_platform env_signer_down
               "64b7f0c2a1d3e4f5a6b7c8d1" sample_world = (w', Fulfilled r)
             ∧ (status r = 200 ∨ status r = 404 ∨ status r = 500))
  ∧ (∃ w' r, delete_posts_postID sample_platform sample_env
               "64b7f0c2a1d3e4f5a6b7c8d9" sample_world = (w', Fulfilled r)
             ∧ (status r = 200 ∨ status r = 404 ∨ status r = 500))
  ∧ (∃ w' r, post_compose sample_platform sample_env compose_no_file sample_world
               = (w', Fulfilled r)
             ∧ (status r = 201 ∨ (400 ≤ status r < 600)%nat)).
Proof.
  split; [|split; [|split]].
  - eexists _, _. split; [vm_compute; reflexivity|].
    eapply (proj1 (route_statuses sample_platform sample_env sample_world _ _) [0; 1; 2]).
    vm_compute. reflexivity.
  - eexists _, _. split; [vm_compute; reflexivity|].
    eapply (proj1 (proj2 (route_statuses sample_platform env_signer_down sample_world _ _))
              "64b7f0c2a1d3e4f5a6b7c8d1").
    vm_compute. reflexivity.
  - eexists _, _. split; [vm_compute; reflexivity|].
    eapply (proj1 (proj2 (proj2 (route_statuses sample_platform sample_env sample_world _ _)))
              "64b7f0c2a1d3e4f5a6b7c8d9").
    vm_compute. reflexivity.
  - eexists _, _. split; [vm_compute; reflexivity|].
    eapply (proj2 (proj2 (proj2 (route_statuses sample_platform sample_env sample_world _ _)))
              compose_no_file).
    vm_compute. reflexivity.
Defined.

(** A malformed id prints one line; an unknown id prints none. *)
Lemma detail_delete_print_only_on_500_witness :
  fst <$> stderr (get_posts_postID sample_platform sample_env "not-an-id" sample_world).1
    = ["Error fetching post with ID not-an-id"]
  ∧ stderr (delete_posts_postID sample_platform sample_env
              "64b7f0c2a1d3e4f5a6b7c8d9" sample_world).1 = [].
Proof.
  split.
  - edestruct (detail_delete_print_only_on_500 sample_platform sample_env "not-an-id"
                 sample_world) as [(_ & msg & e & Hlog & _)|(Hst & _)].
    + left. vm_compute. reflexivity.
    + vm_compute. reflexivity.
    + vm_compute in Hst. by destruct Hst.
  - edestruct (detail_delete_print_only_on_500 sample_platform sample_env
                 "64b7f0c2a1d3e4f5a6b7c8d9" sample_world) as [(Hst & _)|(_ & Hlog)].
    + right. vm_compute. reflexivity.
    + vm_compute in Hst. discriminate Hst.
    + vm_compute. reflexivity.
Defined.
